(** * groupchat: the chat server of [server.js]

    A shallow embedding of the Socket.IO handlers ([join], [sendMessage],
    [getMessages], [disconnect], [updateUserList]), of the HTTP routes
    [/api/messages] and [/api/login], of [createDefaultUsers] and of
    [getLocalIP], together with the part of the runtime they rely on:
    the clock, [Date.prototype.toISOString], [parseInt], template
    literals, and the SQLite statements the handlers send to [chat.db].

    Conventions of the embedding.
    - Time is a number of milliseconds since the Unix epoch ([Z]).
    - Text (JavaScript strings, SQLite TEXT values) is [string], the
      sequence of the bytes of its UTF-8 encoding; SQLite compares TEXT
      with the BINARY collation, that is byte by byte, which is
      [String.compare].
    - A JavaScript value that may be [undefined], and an SQL value that
      may be NULL, is an [option]. A field that is missing from a
      payload reads as [undefined]; an event that comes without a
      payload object is the request [Bare], on which the handler
      throws.
    - The [days] of a [getMessages] payload is a [js_value]: the
      handler prints whatever comes into the statement.
    - An exception that a handler throws is caught by nothing: the
      process ends ([Uncaught]).
    - The database handle is not serialized. The statements of one
      handler reach the engine before the next event is handled, and
      the callbacks run before it too, but the [SELECT] of
      [updateUserList] may run before the statement the handler queued
      ahead of it: [overtaken] says whether it does.
    - [io_err] says whether the engine fails on the statement whose
      callback tests [err]; the statements queued without a callback
      (on [online_users], and the update of [last_login]) are taken to
      succeed.
    - SQLite is modelled on the statements the handlers can build:
      [prepare] reads the text of a [SELECT] on [messages] as the
      engine does (up to the first zero byte, with an [ORDER BY]
      ascending or descending, with or without the [LIMIT], with a
      comment to the end of the line), and the modifiers of [datetime]
      that are a signed count of days or no modifier at all.
    - The ids that [AUTOINCREMENT] gives in [users], and the order in
      which the inserts of [createDefaultUsers] run, are the engine's:
      they are arguments of the account definitions.
    - [bcrypt] is a pair of functions the account lemmas take as
      arguments: [hashSync] with the salt it draws made explicit, and
      [compareSync]. *)

From Stdlib Require Import ZArith String Ascii List Bool Lia Sorted.
From Stdlib Require Import DecimalString DecimalPos.
From stdpp Require Import base gmap strings list.

Local Open Scope string_scope.
Local Open Scope Z_scope.

(** ** The runtime: calendar, clock formats, numbers *)

Module Runtime.

Definition ms_per_day : Z := 86400000.

(** Proleptic Gregorian date [(year, month, day)] of a day number
    counted from 1970-01-01. *)
Definition civil_from_days (z : Z) : Z * Z * Z :=
  let z := z + 719468 in
  let era := z / 146097 in
  let doe := z - era * 146097 in
  let yoe := (doe - doe / 1460 + doe / 36524 - doe / 146096) / 365 in
  let y := yoe + era * 400 in
  let doy := doe - (365 * yoe + yoe / 4 - yoe / 100) in
  let mp := (5 * doy + 2) / 153 in
  let d := doy - (153 * mp + 2) / 5 + 1 in
  let m := if mp <? 10 then mp + 3 else mp - 9 in
  (if m <=? 2 then y + 1 else y, m, d).

Definition digit (d : Z) : ascii := ascii_of_N (48 + Z.to_N (d mod 10)).

(** [pad n z]: the last [n] decimal digits of [z], most significant
    first (zero padded). *)
Fixpoint pad (n : nat) (z : Z) : string :=
  match n with
  | O => EmptyString
  | S n' => pad n' (z / 10) +:+ String (digit z) EmptyString
  end.

Definition year_of (ms : Z) : Z := fst (fst (civil_from_days (ms / ms_per_day))).
Definition month_of (ms : Z) : Z := snd (fst (civil_from_days (ms / ms_per_day))).
Definition day_of (ms : Z) : Z := snd (civil_from_days (ms / ms_per_day)).
Definition hours_of (ms : Z) : Z := (ms mod ms_per_day) / 3600000.
Definition minutes_of (ms : Z) : Z := (ms mod 3600000) / 60000.
Definition seconds_of (ms : Z) : Z := (ms mod 60000) / 1000.
Definition millis_of (ms : Z) : Z := ms mod 1000.

(** [new Date(ms).toISOString()]: [YYYY-MM-DDTHH:mm:ss.sssZ], with the
    six-digit signed year JavaScript uses outside 0000..9999. *)
Definition iso_year (y : Z) : string :=
  if (0 <=? y) && (y <=? 9999) then pad 4 y
  else (if y <? 0 then "-" else "+") +:+ pad 6 (Z.abs y).

Definition toISOString (ms : Z) : string :=
  iso_year (year_of ms) +:+ "-" +:+ pad 2 (month_of ms) +:+ "-" +:+ pad 2 (day_of ms)
  +:+ "T" +:+ pad 2 (hours_of ms) +:+ ":" +:+ pad 2 (minutes_of ms) +:+ ":"
  +:+ pad 2 (seconds_of ms) +:+ "." +:+ pad 3 (millis_of ms) +:+ "Z".

(** [Number.prototype.toString] as a template literal applies it, for
    the values [parseInt] yields here: [None] is [NaN], [Some z] the
    integer [z] in decimal. (The model keeps integers exact; JavaScript
    rounds beyond 2^53 and switches to exponent notation from 1e21.) *)
Definition number_to_string (n : option Z) : string :=
  match n with
  | None => "NaN"
  | Some z => NilZero.string_of_int (Z.to_int z)
  end.

(** The white space [parseInt] skips ([StrWhiteSpaceChar]: the
    [WhiteSpace] and [LineTerminator] characters of the language), read
    on the UTF-8 bytes of the text. In one byte: TAB, LF, VT, FF, CR and
    the space. *)
Definition is_space (c : ascii) : bool :=
  let n := N_of_ascii c in ((9 <=? n) && (n <=? 13))%N || (n =? 32)%N.

(** In two bytes: U+00A0 ([C2 A0]). *)
Definition is_space2 (a b : ascii) : bool :=
  ((N_of_ascii a =? 194) && (N_of_ascii b =? 160))%N.

(** In three bytes: U+1680 ([E1 9A 80]), U+2000 to U+200A
    ([E2 80 80] to [E2 80 8A]), U+2028, U+2029 and U+202F ([E2 80 A8],
    [A9], [AF]), U+205F ([E2 81 9F]), U+3000 ([E3 80 80]) and U+FEFF
    ([EF BB BF]). *)
Definition is_space3 (a b c : ascii) : bool :=
  let x := N_of_ascii a in
  let y := N_of_ascii b in
  let z := N_of_ascii c in
  (((x =? 225) && (y =? 154) && (z =? 128))
   || ((x =? 226) && (y =? 128)
       && (((128 <=? z) && (z <=? 138)) || (z =? 168) || (z =? 169) || (z =? 175)))
   || ((x =? 226) && (y =? 129) && (z =? 159))
   || ((x =? 227) && (y =? 128) && (z =? 128))
   || ((x =? 239) && (y =? 187) && (z =? 191)))%N.

Fixpoint trim_start (s : string) : string :=
  match s with
  | String a s1 =>
      if is_space a then trim_start s1
      else
        match s1 with
        | String b s2 =>
            if is_space2 a b then trim_start s2
            else
              match s2 with
              | String c s3 => if is_space3 a b c then trim_start s3 else s
              | EmptyString => s
              end
        | EmptyString => s
        end
  | EmptyString => s
  end.

(** Value of a digit character in the given radix (10 or 16). *)
Definition digit_value (radix : Z) (c : ascii) : option Z :=
  let n := Z.of_N (N_of_ascii c) in
  let v := if (48 <=? n) && (n <=? 57) then Some (n - 48)
           else if (97 <=? n) && (n <=? 102) then Some (n - 87)
           else if (65 <=? n) && (n <=? 70) then Some (n - 55)
           else None in
  match v with
  | Some d => if d <? radix then Some d else None
  | None => None
  end.

(** Longest prefix of digits: [None] when it is empty. *)
Fixpoint leading_digits (radix : Z) (acc : option Z) (s : string) : option Z :=
  match s with
  | String c s' =>
      match digit_value radix c with
      | Some d => leading_digits radix (Some (radix * default 0 acc + d)) s'
      | None => acc
      end
  | EmptyString => acc
  end.

(** [parseInt(s)] with no radix argument. (As for [number_to_string],
    the model keeps the integer exact.) *)
Definition parseInt (s : string) : option Z :=
  let s := trim_start s in
  let '(sign, s) :=
    match s with
    | String "-" s' => (-1, s')
    | String "+" s' => (1, s')
    | _ => (1, s)
    end in
  let '(radix, s) :=
    match s with
    | String "0" (String "x" s') => (16, s')
    | String "0" (String "X" s') => (16, s')
    | _ => (10, s)
    end in
  match leading_digits radix None s with
  | Some v => Some (sign * v)
  | None => None
  end.

End Runtime.

(** ** SQLite: the tables of [initDatabase] and the statements used *)

Module Sqlite.
Import Runtime.

(** Row of [messages]. [student_id] and [content] are declared
    [NOT NULL]; [id] is the [AUTOINCREMENT] rowid. (The foreign key on
    [student_id] is not enforced: the handle never turns that on.) *)
Record message_row := {
  id : Z;
  student_id : string;
  user_name : option string;
  content : string;
  timestamp : string
}.

(** Row of [online_users], whose primary key is [student_id]. *)
Record online_row := {
  ou_student_id : option string;
  ou_user_name : option string;
  ou_socket_id : string;
  ou_joined_at : string
}.

(** A table is the list of its rows in rowid order, the order in which
    a full scan visits them. *)
Record database := {
  messages : list message_row;
  online_users : list online_row
}.

(** *** Date and time functions *)

(** The text [datetime] prints for an instant, [YYYY-MM-DD HH:MM:SS];
    this is also the format of [CURRENT_TIMESTAMP]. *)
Definition datetime_text (ms : Z) : string :=
  let y := year_of ms in
  (if y <? 0 then "-" else EmptyString) +:+ pad 4 (Z.abs y) +:+ "-" +:+ pad 2 (month_of ms)
  +:+ "-" +:+ pad 2 (day_of ms) +:+ " " +:+ pad 2 (hours_of ms) +:+ ":"
  +:+ pad 2 (minutes_of ms) +:+ ":" +:+ pad 2 (seconds_of ms).

(** Julian day number in milliseconds; SQLite accepts the range
    -4713-11-24 12:00:00 .. 9999-12-31 23:59:59. *)
Definition julian_ms (ms : Z) : Z := ms + 210866760000000.
Definition valid_julian (ms : Z) : bool :=
  (0 <=? julian_ms ms) && (julian_ms ms <=? 464269060799999).

(** [CURRENT_TIMESTAMP], the default of the date columns: the clock in
    the format of [datetime]; when the clock is outside the range of the
    engine, every field is printed as zero. *)
Definition CURRENT_TIMESTAMP (now : Z) : string :=
  if valid_julian now then datetime_text now else "0000-00-00 00:00:00".

Definition is_digit (c : ascii) : bool :=
  let n := N_of_ascii c in ((48 <=? n) && (n <=? 57))%N.

(** Split a text into its leading decimal digits and the rest. *)
Fixpoint span_digits (s : string) : string * string :=
  match s with
  | String c s' =>
      if is_digit c then let '(d, r) := span_digits s' in (String c d, r)
      else (EmptyString, s)
  | EmptyString => (EmptyString, EmptyString)
  end.

Definition decimal_value (s : string) : option Z :=
  match s with
  | EmptyString => None
  | _ => leading_digits 10 None s
  end.

(** What [datetime] makes of a modifier that starts with a sign, as
    those the server writes do ([-<days> days]).
    - [Offset d]: a sign, digits and [ days], the digits below the
      engine's limit: [d] whole days.
    - [NotAModifier]: the engine refuses the text, and [datetime]
      returns NULL. That is so when the digits reach the limit, and
      when the sign is followed by something else than a digit or a
      point ([-NaN days], [--3 days], [-true days]): the engine reads a
      number first, and there is none.
    - [OtherModifier]: any other text. Some are modifiers of SQLite
      ([-1.5 days], [-2 hours], [-1 day]); the model gives them no
      reading. *)
Inductive modifier_reading :=
| Offset (d : Z)
| NotAModifier
| OtherModifier.

Definition is_sign (c : ascii) : bool := Ascii.eqb c "-" || Ascii.eqb c "+".

Definition parse_modifier (m : string) : modifier_reading :=
  match m with
  | String s (String c r) =>
      if is_sign s then
        if is_digit c then
          let '(d, rest) := span_digits (String c r) in
          if (rest =? " days")%string then
            match decimal_value d with
            | Some v =>
                if v <? 5373485
                then Offset (if Ascii.eqb s "-" then - v else v)
                else NotAModifier
            | None => NotAModifier
            end
          else OtherModifier
        else if Ascii.eqb c "." then OtherModifier else NotAModifier
      else OtherModifier
  | _ => OtherModifier
  end.

Definition modelled (r : modifier_reading) : bool :=
  match r with
  | OtherModifier => false
  | _ => true
  end.

(** [datetime('now', m)], for a modifier the model reads; [None] is
    NULL. *)
Definition datetime_now (now : Z) (m : string) : option string :=
  match parse_modifier m with
  | Offset d =>
      let t := now + d * ms_per_day in
      if valid_julian t then Some (datetime_text t) else None
  | _ => None
  end.

Definition number_at (s : string) (pos len : nat) : option Z :=
  let t := substring pos len s in
  let '(d, r) := span_digits t in
  if (String.length d =? len)%nat then decimal_value d else None.

Definition in_range (v : option Z) (lo hi : Z) : bool :=
  match v with
  | Some z => (lo <=? z) && (z <=? hi)
  | None => false
  end.

(** [date(t)] for a timestamp in the shape [toISOString] writes,
    [YYYY-MM-DDTHH:MM:SS.sssZ]: its calendar date, the first ten
    characters. NULL for a text of another shape (the table holds
    only timestamps written by [sendMessage]). *)
Definition date (t : string) : option string :=
  if (String.length t =? 24)%nat
     && in_range (number_at t 0 4) 0 9999
     && (substring 4 1 t =? "-")%string
     && in_range (number_at t 5 2) 1 12
     && (substring 7 1 t =? "-")%string
     && in_range (number_at t 8 2) 1 31
     && (substring 10 1 t =? "T")%string
     && in_range (number_at t 11 2) 0 24
     && (substring 13 1 t =? ":")%string
     && in_range (number_at t 14 2) 0 59
     && (substring 16 1 t =? ":")%string
     && in_range (number_at t 17 2) 0 59
     && (substring 19 1 t =? ".")%string
     && in_range (number_at t 20 3) 0 999
     && (substring 23 1 t =? "Z")%string
  then Some (substring 0 10 t) else None.

(** *** ORDER BY *)

(** The sorter keeps the rows it is given in the order of the key, rows
    of equal key in the order of arrival: a new row goes before the
    first row of greater key. This is how SQLite runs [ORDER BY] with
    a [LIMIT] and no index on the key: it files each row of the scan
    under the key followed by a sequence number. *)
Fixpoint sorter_insert {A} (key : A -> string) (x : A) (l : list A) : list A :=
  match l with
  | [] => [x]
  | y :: l' =>
      if String.ltb (key x) (key y) then x :: l else y :: sorter_insert key x l'
  end.

(** [ORDER BY key ASC] on the rows of a scan. (For [online_users],
    read without a [LIMIT], the order among equal keys is the engine's
    choice; nothing below depends on it.) *)
Definition order_by {A} (key : A -> string) (l : list A) : list A :=
  fold_left (fun sorted x => sorter_insert key x sorted) l [].

(** [ORDER BY key DESC]: a new row goes before the first row of smaller
    key. (The order among equal keys is the engine's choice; nothing
    below depends on it.) *)
Fixpoint sorter_insert_desc {A} (key : A -> string) (x : A) (l : list A) : list A :=
  match l with
  | [] => [x]
  | y :: l' =>
      if String.ltb (key y) (key x) then x :: l else y :: sorter_insert_desc key x l'
  end.

Definition order_by_desc {A} (key : A -> string) (l : list A) : list A :=
  fold_left (fun sorted x => sorter_insert_desc key x sorted) l [].

(** *** SELECT on [messages] *)

Inductive where_clause :=
| WhereNone
| WhereSince (modifier : string)
| WhereBetween
| WhereFrom.

Definition select_messages : string := "SELECT * FROM messages".
Definition where_since_open : string := " WHERE timestamp >= datetime('now', '".
Definition where_since_close : string := "')".
Definition where_between : string := " WHERE date(timestamp) BETWEEN ? AND ?".
Definition where_from : string := " WHERE date(timestamp) >= ?".
Definition order_limit : string := " ORDER BY timestamp ASC LIMIT 1000".

Fixpoint strip_prefix (p s : string) : option string :=
  match p, s with
  | EmptyString, _ => Some s
  | String a p', String b s' => if Ascii.eqb a b then strip_prefix p' s' else None
  | String _ _, EmptyString => None
  end.

(** Text up to the first single quote, and the text from it on. *)
Fixpoint until_quote (s : string) : string * string :=
  match s with
  | String c s' =>
      if Ascii.eqb c "'" then (EmptyString, s)
      else let '(a, b) := until_quote s' in (String c a, b)
  | EmptyString => (EmptyString, EmptyString)
  end.

(** A statement of the model: [SELECT * FROM messages], one of the
    filters of the handlers or none, [ORDER BY timestamp] in either
    direction, and the [LIMIT 1000] of the handlers or none. *)
Record select_statement := {
  where_of : where_clause;
  descending : bool;
  capped : bool
}.

(** The statement the handlers mean to send, with the filter [w]. *)
Definition server_statement (w : where_clause) : select_statement :=
  {| where_of := w; descending := false; capped := true |}.

(** The engine reads a statement up to the first zero byte. *)
Fixpoint c_string (s : string) : string :=
  match s with
  | String c s' => if Ascii.eqb c zero then EmptyString else String c (c_string s')
  | EmptyString => EmptyString
  end.

Fixpoint one_line (s : string) : bool :=
  match s with
  | String c s' => negb (Ascii.eqb c "010") && one_line s'
  | EmptyString => true
  end.

(** What follows the filter: [ ORDER BY timestamp ASC] or [DESC], then
    [ LIMIT 1000] or nothing, then nothing or a comment, [ --] and the
    rest of the line, which the engine skips. *)
Definition parse_tail (w : where_clause) (tail : string) : option select_statement :=
  match strip_prefix " ORDER BY timestamp " tail with
  | None => None
  | Some r =>
      let direction :=
        match strip_prefix "ASC" r with
        | Some r' => Some (false, r')
        | None =>
            match strip_prefix "DESC" r with
            | Some r' => Some (true, r')
            | None => None
            end
        end in
      match direction with
      | None => None
      | Some (desc, r) =>
          let '(cap, r) :=
            match strip_prefix " LIMIT 1000" r with
            | Some r' => (true, r')
            | None => (false, r)
            end in
          let ends :=
            match r with
            | EmptyString => true
            | _ =>
                match strip_prefix " --" r with
                | Some comment => one_line comment
                | None => false
                end
            end in
          if ends then Some {| where_of := w; descending := desc; capped := cap |}
          else None
      end
  end.

(** The statements the model gives a meaning to, recognised from
    their text. They include every text the handlers build from dates,
    from a number of days and from [parseInt], and texts in which a
    client's [days] closes the quote of the modifier, states an order
    itself and comments out the rest. [None] is a text outside this
    fragment: a text the engine refuses, or a statement of SQLite
    that the model does not cover. *)
Definition prepare (sql : string) : option select_statement :=
  match strip_prefix select_messages (c_string sql) with
  | None => None
  | Some rest =>
      match strip_prefix where_between rest with
      | Some tail => parse_tail WhereBetween tail
      | None =>
          match strip_prefix where_from rest with
          | Some tail => parse_tail WhereFrom tail
          | None =>
              match strip_prefix where_since_open rest with
              | Some r =>
                  let '(m, r') := until_quote r in
                  match strip_prefix where_since_close r' with
                  | Some tail =>
                      if modelled (parse_modifier m)
                      then parse_tail (WhereSince m) tail else None
                  | None => None
                  end
              | None => parse_tail WhereNone rest
              end
          end
      end
  end.

Definition placeholders (w : where_clause) : nat :=
  match w with
  | WhereBetween => 2
  | WhereFrom => 1
  | _ => 0
  end.

(** Comparison of TEXT values; a NULL operand makes the condition
    unknown, and the row is not selected. *)
Definition text_le (a b : option string) : bool :=
  match a, b with
  | Some x, Some y => String.leb x y
  | _, _ => false
  end.

Definition param (params : list (option string)) (i : nat) : option string :=
  mjoin (params !! i).

Definition selects (w : where_clause) (params : list (option string)) (now : Z)
    (r : message_row) : bool :=
  match w with
  | WhereNone => true
  | WhereSince m => text_le (datetime_now now m) (Some (timestamp r))
  | WhereBetween =>
      text_le (param params 0) (date (timestamp r))
      && text_le (date (timestamp r)) (param params 1)
  | WhereFrom => text_le (param params 0) (date (timestamp r))
  end.

(** [db.all(sql, params, callback)] on [messages]: [None] is the
    [err] argument of the callback, [Some rows] its [messages]
    argument. [io_err] says whether the engine fails on this call. (A
    text outside the fragment of [prepare] is answered like a text the
    engine refuses; no property below is drawn from that answer.) *)
Definition all_messages (db : database) (sql : string) (params : list (option string))
    (now : Z) (io_err : bool) : option (list message_row) :=
  if io_err then None
  else
    match prepare sql with
    | None => None
    | Some q =>
        if (placeholders (where_of q) <? length params)%nat then None
        else
          let rows := List.filter (selects (where_of q) params now) (messages db) in
          let sorted :=
            if descending q then order_by_desc timestamp rows
            else order_by timestamp rows in
          Some (if capped q then take 1000 sorted else sorted)
    end.

(** *** INSERT on [messages] *)

Definition next_rowid (rows : list message_row) : Z :=
  1 + foldr (fun r m => Z.max (id r) m) 0 rows.

(** [INSERT INTO messages (student_id, user_name, content, timestamp)
    VALUES (?, ?, ?, ?)]: [None] is the [err] of the callback (an
    engine failure, or a NULL in a [NOT NULL] column), [Some (db', n)]
    the new table and [this.lastID]. *)
Definition insert_message (db : database) (sid uname body : option string)
    (ts : string) (io_err : bool) : option (database * Z) :=
  if io_err then None
  else
    match sid, body with
    | Some s, Some c =>
        let n := next_rowid (messages db) in
        let row := {| id := n; student_id := s; user_name := uname;
                      content := c; timestamp := ts |} in
        Some ({| messages := (messages db ++ [row])%list;
                 online_users := online_users db |}, n)
    | _, _ => None
    end.

(** *** Statements on [online_users] *)

Definition same_key (k : option string) (r : online_row) : bool :=
  match k, ou_student_id r with
  | Some a, Some b => (a =? b)%string
  | _, _ => false
  end.

(** [INSERT OR REPLACE INTO online_users (student_id, user_name,
    socket_id) VALUES (?, ?, ?)]: the row holding the same primary key
    is deleted, then the new row is added; [joined_at] takes its
    default. *)
Definition insert_or_replace_online (db : database) (sid uname : option string)
    (sock : string) (now : Z) : database :=
  let row := {| ou_student_id := sid; ou_user_name := uname;
                ou_socket_id := sock; ou_joined_at := CURRENT_TIMESTAMP now |} in
  {| messages := messages db;
     online_users :=
       (List.filter (fun r => negb (same_key sid r)) (online_users db) ++ [row])%list |}.

(** [DELETE FROM online_users WHERE socket_id = ?] *)
Definition delete_online (db : database) (sock : string) : database :=
  {| messages := messages db;
     online_users :=
       List.filter (fun r => negb (ou_socket_id r =? sock)%string) (online_users db) |}.

(** [SELECT * FROM online_users ORDER BY joined_at ASC] *)
Definition all_online (db : database) (io_err : bool) : option (list online_row) :=
  if io_err then None else Some (order_by ou_joined_at (online_users db)).

End Sqlite.


(** ** The server *)

Module Server.
Import Runtime Sqlite.

Definition socket_id := string.

(** [{ studentId, name }], as sent by a client and as put in events. *)
Record user_info := {
  studentId : option string;
  name : option string
}.

(** Value of the [connectedUsers] map: [{ studentId, name, socketId }]. *)
Record connected_user := {
  cu_studentId : option string;
  cu_name : option string;
  cu_socketId : socket_id
}.

(** [{ id, content, timestamp, user: { studentId, name } }] *)
Record chat_message := {
  m_id : Z;
  m_content : option string;
  m_timestamp : string;
  m_user : user_info
}.

(** [{ studentId, name, online: true }] *)
Record user_entry := {
  ue_studentId : option string;
  ue_name : option string;
  online : bool
}.

(** Payload of [sendMessage]: [{ content, user }], either of which may
    be missing. *)
Record message_data := {
  content_of : option string;
  user_of : option user_info
}.

(** A value of a JSON payload, as far as a handler tests it and prints
    it into a text: an integer, a text, a boolean, or anything else that
    is neither [null] nor [undefined] (an array, an object, a number
    that is not an integer), which is truthy and is given by the text
    [ToString] makes of it. [null] and [undefined] are the [None] of an
    [option]. *)
Inductive js_value :=
| JNumber (n : Z)
| JText (s : string)
| JBool (b : bool)
| JOther (text : string).

(** Payload of [getMessages]: [{ days, startDate, endDate }]. The
    clients of the repository send [days] as an integer, but the handler
    takes what comes; the dates are texts. *)
Record date_range := {
  days : option js_value;
  startDate : option string;
  endDate : option string
}.

(** [req.query] of [GET /api/messages]: every field is text. *)
Record req_query := {
  q_days : option string;
  q_startDate : option string;
  q_endDate : option string
}.

Inductive server_event :=
| userJoined (user : user_info)
| userLeft (user : user_info)
| userListUpdate (userList : list user_entry)
| systemMessage (type message : string)
| newMessage (message : chat_message)
| messageHistory (formattedMessages : list chat_message)
| error (message : string).

(** The three ways the handlers emit: [io.emit] (every connected
    socket), [socket.emit] (this socket), [socket.broadcast.emit]
    (every connected socket but this one). *)
Inductive emit :=
| io_emit (e : server_event)
| socket_emit (sock : socket_id) (e : server_event)
| socket_broadcast_emit (sock : socket_id) (e : server_event).

Record state := {
  sockets : gset socket_id;
  connectedUsers : gmap socket_id connected_user;
  db : database
}.

(** A process that has just started on an empty [chat.db]. *)
Definition initial : state :=
  {| sockets := ∅; connectedUsers := ∅;
     db := {| messages := []; online_users := [] |} |}.

(** What one connection receives from an emit, given the sockets
    connected when it happens. *)
Definition delivered (conns : gset socket_id) (c : socket_id) (a : emit)
    : option server_event :=
  match a with
  | io_emit e => if decide (c ∈ conns) then Some e else None
  | socket_emit s e => if decide (c = s) then Some e else None
  | socket_broadcast_emit s e =>
      if decide (c ∈ conns ∧ c ≠ s) then Some e else None
  end.

Definition received (conns : gset socket_id) (c : socket_id) (out : list emit)
    : list server_event :=
  omap (delivered conns c) out.

(** JavaScript truthiness of the values tested in the handlers. *)
Definition truthy_text (v : option string) : bool :=
  match v with
  | Some s => negb (s =? EmptyString)%string
  | None => false
  end.

Definition truthy_value (v : option js_value) : bool :=
  match v with
  | Some (JNumber z) => negb (z =? 0)
  | Some (JText s) => negb (s =? EmptyString)%string
  | Some (JBool b) => b
  | Some (JOther _) => true
  | None => false
  end.

(** [v !== 0] *)
Definition differs_from_zero (v : option js_value) : bool :=
  match v with
  | Some (JNumber z) => negb (z =? 0)
  | _ => true
  end.

(** [ToString(v)], as a template literal applies it. *)
Definition template_value (v : option js_value) : string :=
  match v with
  | Some (JNumber z) => number_to_string (Some z)
  | Some (JText s) => s
  | Some (JBool b) => if b then "true" else "false"
  | Some (JOther text) => text
  | None => "undefined"
  end.

(** [v !== s] for a value that is a text or undefined. *)
Definition not_identical (v : option string) (s : string) : bool :=
  match v with
  | Some x => negb (x =? s)%string
  | None => true
  end.

(** [ToString(v)], which [parseInt] applies to its argument. *)
Definition to_text (v : option string) : string :=
  match v with
  | Some x => x
  | None => "undefined"
  end.

Definition formatMessage (msg : message_row) : chat_message :=
  {| m_id := id msg;
     m_content := Some (content msg);
     m_timestamp := timestamp msg;
     m_user := {| studentId := Some (student_id msg); name := user_name msg |} |}.

(** *** [GET /api/messages] *)

Definition api_messages_query (q : req_query) : string * list (option string) :=
  let query := "SELECT * FROM messages" in
  let '(query, params) :=
    if truthy_text (q_days q) && not_identical (q_days q) "0" then
      (query +:+ " WHERE timestamp >= datetime('now', '-"
         +:+ number_to_string (parseInt (to_text (q_days q))) +:+ " days')", [])
    else if truthy_text (q_startDate q) && truthy_text (q_endDate q) then
      (query +:+ " WHERE date(timestamp) BETWEEN ? AND ?", [q_startDate q; q_endDate q])
    else if truthy_text (q_startDate q) then
      (query +:+ " WHERE date(timestamp) >= ?", [q_startDate q])
    else (query, []) in
  (query +:+ " ORDER BY timestamp ASC LIMIT 1000", params).

Inductive http_response :=
| json_ok (messages : list chat_message)
| json_500 (message : string).

Definition api_messages (st : state) (q : req_query) (now : Z) (io_err : bool)
    : http_response :=
  let '(query, params) := api_messages_query q in
  match all_messages (db st) query params now io_err with
  | None => json_500 "获取消息失败"
  | Some messages => json_ok (map formatMessage messages)
  end.

(** *** Socket handlers *)

Definition userList (users : list online_row) : list user_entry :=
  map (fun user => {| ue_studentId := ou_student_id user;
                      ue_name := ou_user_name user;
                      online := true |}) users.

(** [updateUserList()], reading the table of [st]. *)
Definition updateUserList (st : state) (io_err : bool) : list emit :=
  match all_online (db st) io_err with
  | None => []
  | Some users => [io_emit (userListUpdate (userList users))]
  end.

(** [socket.on('join')]. The two emits of the handler body come
    first; the list update is emitted from the callback of
    [updateUserList]. The handler queues the [INSERT OR REPLACE] and
    then the [SELECT] of [updateUserList] without serializing them:
    [overtaken] says that the [SELECT] ran first, and so read the table
    as it was before the join. *)
Definition on_join (st : state) (sock : socket_id) (userInfo : user_info)
    (now : Z) (io_err overtaken : bool) : state * list emit :=
  let st' :=
    {| sockets := sockets st;
       connectedUsers :=
         <[sock := {| cu_studentId := studentId userInfo;
                      cu_name := name userInfo;
                      cu_socketId := sock |}]> (connectedUsers st);
       db := insert_or_replace_online (db st) (studentId userInfo)
               (name userInfo) sock now |} in
  (st',
   ([socket_broadcast_emit sock
       (userJoined {| studentId := studentId userInfo; name := name userInfo |});
     socket_emit sock (systemMessage "welcome" "欢迎来到群聊！")]
    ++ updateUserList (if overtaken then st else st') io_err)%list).

(** Result of a handler that can throw: reading a field of a payload
    that is [undefined], or [user.studentId] with [user] undefined, is
    a [TypeError], which nothing catches. *)
Inductive outcome :=
| Returned (st : state) (out : list emit)
| Uncaught (exn : string).

(** [socket.on('sendMessage')] *)
Definition on_sendMessage (st : state) (sock : socket_id) (messageData : message_data)
    (now : Z) (io_err : bool) : outcome :=
  let content := content_of messageData in
  let timestamp := toISOString now in
  match user_of messageData with
  | None => Uncaught "TypeError"
  | Some user =>
      match insert_message (db st) (studentId user) (name user) content timestamp io_err with
      | None => Returned st [socket_emit sock (error "消息发送失败")]
      | Some (db', lastID) =>
          let message :=
            {| m_id := lastID; m_content := content; m_timestamp := timestamp;
               m_user := {| studentId := studentId user; name := name user |} |} in
          Returned {| sockets := sockets st;
                      connectedUsers := connectedUsers st;
                      db := db' |}
                   [io_emit (newMessage message)]
      end
  end.

(** The query of [socket.on('getMessages')]. *)
Definition getMessages_query (dateRange : date_range) : string * list (option string) :=
  let query := "SELECT * FROM messages" in
  let '(query, params) :=
    if truthy_value (days dateRange) && differs_from_zero (days dateRange) then
      (query +:+ " WHERE timestamp >= datetime('now', '-"
         +:+ template_value (days dateRange) +:+ " days')", [])
    else if truthy_text (startDate dateRange) && truthy_text (endDate dateRange) then
      (query +:+ " WHERE date(timestamp) BETWEEN ? AND ?",
       [startDate dateRange; endDate dateRange])
    else if truthy_text (startDate dateRange) then
      (query +:+ " WHERE date(timestamp) >= ?", [startDate dateRange])
    else (query, []) in
  (query +:+ " ORDER BY timestamp ASC LIMIT 1000", params).

(** [socket.on('getMessages')] *)
Definition on_getMessages (st : state) (sock : socket_id) (dateRange : date_range)
    (now : Z) (io_err : bool) : state * list emit :=
  let '(query, params) := getMessages_query dateRange in
  match all_messages (db st) query params now io_err with
  | None => (st, [socket_emit sock (error "获取消息历史失败")])
  | Some messages =>
      (st, [socket_emit sock (messageHistory (map formatMessage messages))])
  end.

(** [socket.on('disconnect')]. Socket.IO has removed the socket from
    the connected ones when the handler runs. As in [on_join],
    [overtaken] says that the [SELECT] of [updateUserList] ran before
    the [DELETE] queued ahead of it. *)
Definition on_disconnect (st : state) (sock : socket_id) (io_err overtaken : bool)
    : state * list emit :=
  let st := {| sockets := sockets st ∖ {[sock]};
               connectedUsers := connectedUsers st;
               db := db st |} in
  match connectedUsers st !! sock with
  | Some user =>
      let st' :=
        {| sockets := sockets st;
           connectedUsers := delete sock (connectedUsers st);
           db := delete_online (db st) sock |} in
      (st',
       socket_broadcast_emit sock
         (userLeft {| studentId := cu_studentId user; name := cu_name user |})
       :: updateUserList (if overtaken then st else st') io_err)
  | None => (st, [])
  end.

(** [io.on('connection')] *)
Definition on_connection (st : state) (sock : socket_id) : state :=
  {| sockets := {[sock]} ∪ sockets st;
     connectedUsers := connectedUsers st;
     db := db st |}.

(** *** Runs *)

(** The events of a connection. [Bare] is a [join], [sendMessage] or
    [getMessages] sent without a payload, or with [null]: each of the
    three handlers starts by reading fields of its payload. (A payload
    that is not an object has no such fields: it is the record whose
    fields are all [None].) *)
Inductive request :=
| Connection (sock : socket_id)
| Join (sock : socket_id) (userInfo : user_info)
| SendMessage (sock : socket_id) (messageData : message_data)
| GetMessages (sock : socket_id) (dateRange : date_range)
| Disconnect (sock : socket_id)
| Bare (sock : socket_id).

(** An event together with what the handler finds when it runs: the
    clock, whether the engine fails on the statement whose error the
    handler tests, and whether the [SELECT] of [updateUserList]
    overtakes the statement queued before it. *)
Record input := { req : request; now_of : Z; io_err_of : bool; overtaken_of : bool }.

Definition step (st : state) (i : input) : outcome :=
  match req i with
  | Connection s => Returned (on_connection st s) []
  | Join s u =>
      let '(st', out) := on_join st s u (now_of i) (io_err_of i) (overtaken_of i) in
      Returned st' out
  | SendMessage s d => on_sendMessage st s d (now_of i) (io_err_of i)
  | GetMessages s r =>
      let '(st', out) := on_getMessages st s r (now_of i) (io_err_of i) in Returned st' out
  | Disconnect s =>
      let '(st', out) := on_disconnect st s (io_err_of i) (overtaken_of i) in
      Returned st' out
  | Bare s => Uncaught "TypeError"
  end.

(** The state after a run; an uncaught exception ends the process, and
    the events that follow are not handled. *)
Fixpoint run (st : state) (tr : list input) : state :=
  match tr with
  | [] => st
  | i :: tr' =>
      match step st i with
      | Returned st' _ => run st' tr'
      | Uncaught _ => st
      end
  end.

End Server.

Import Runtime Sqlite Server.

(** ** Vocabulary of the properties *)

(** Ascending by timestamp, messages of equal timestamp ascending by id. *)
Definition message_le (a b : chat_message) : Prop :=
  String.ltb (m_timestamp a) (m_timestamp b) = true
  \/ (m_timestamp a = m_timestamp b /\ m_id a <= m_id b).

(** The rowids of [messages] grow along the table. *)
Definition ids_ascending (rows : list message_row) : Prop :=
  StronglySorted (fun a b => id a < id b) rows.

(** The same order on any rows with a text key and a numeric rank. *)
Definition lex_le {A} (key : A -> string) (rank : A -> Z) (a b : A) : Prop :=
  String.ltb (key a) (key b) = true \/ (key a = key b /\ rank a <= rank b).

Fixpoint quote_free (s : string) : bool :=
  match s with
  | String c s' => negb (Ascii.eqb c "'") && quote_free s'
  | EmptyString => true
  end.

Fixpoint nul_free (s : string) : bool :=
  match s with
  | String c s' => negb (Ascii.eqb c zero) && nul_free s'
  | EmptyString => true
  end.

(** The four texts the history handlers send to SQLite; the first one
    carries the number of days [n] as it was printed into it. *)
Definition since_text (n : string) : string :=
  ("SELECT * FROM messages" +:+ " WHERE timestamp >= datetime('now', '-"
     +:+ n +:+ " days')") +:+ " ORDER BY timestamp ASC LIMIT 1000".
Definition between_text : string :=
  "SELECT * FROM messages WHERE date(timestamp) BETWEEN ? AND ? ORDER BY timestamp ASC LIMIT 1000".
Definition from_text : string :=
  "SELECT * FROM messages WHERE date(timestamp) >= ? ORDER BY timestamp ASC LIMIT 1000".
Definition all_text : string :=
  "SELECT * FROM messages ORDER BY timestamp ASC LIMIT 1000".

(** A [days] that is absent, an integer or a boolean: what the handler
    prints for it holds no text of the client. *)
Definition plain_days (v : option js_value) : bool :=
  match v with
  | Some (JText _) | Some (JOther _) => false
  | _ => true
  end.

(** A [days] that closes the quote of the modifier, states an order
    of its own and comments out the rest of the statement. *)
Definition rewriting_days : js_value := JText "1 days') ORDER BY timestamp DESC --".


(** The whole table in the order and with the cap of a history query. *)
Definition unfiltered (st : state) : list chat_message :=
  map formatMessage (take 1000 (order_by timestamp (messages (db st)))).

(** A text the engine takes as the statement the handlers mean, with
    the filter [w], and with no more values bound than it has
    placeholders. *)
Definition accepted (qp : string * list (option string)) : Prop :=
  exists w, prepare (fst qp) = Some (server_statement w)
    /\ (placeholders w <? length (snd qp))%nat = false.

(** [list()]: the list [updateUserList] sends when the engine answers. *)
Definition presence (st : state) : list user_entry :=
  userList (order_by ou_joined_at (online_users (db st))).

Fixpoint joins (tr : list input) : nat :=
  match tr with
  | [] => 0
  | i :: tr' => (match req i with Join _ _ => 1 | _ => 0 end + joins tr')%nat
  end.

Fixpoint leaves (tr : list input) : nat :=
  match tr with
  | [] => 0
  | i :: tr' => (match req i with Disconnect _ => 1 | _ => 0 end + leaves tr')%nat
  end.

Definition joined_in (tr : list input) (sock : socket_id) : Prop :=
  exists u, In (Join sock u) (map req tr).

Definition left_in (tr : list input) (sock : socket_id) : Prop :=
  In (Disconnect sock) (map req tr).

(** [sock] joined with [u] and has not left since. *)
Definition joined_since (tr : list input) (sock : socket_id) (u : user_info) : Prop :=
  exists before after,
    map req tr = (before ++ Join sock u :: after)%list
    /\ ~ In (Disconnect sock) after.

(** The user [k] has an entry: a row of [online_users] holds that key.
    (A join without identifier stores a NULL key, which equals none.) *)
Definition has_entry (k : option string) (rows : list online_row) : bool :=
  existsb (same_key k) rows.

(** The rows that carry the connection [s]. *)
Definition rows_on (s : socket_id) (rows : list online_row) : list online_row :=
  List.filter (fun r => (ou_socket_id r =? s)%string) rows.

(** The event adds one entry to the list, or removes one, if it is a
    join or a leave: a join names a user who has no entry at that
    moment; a leave is of a connection that has joined, has not left
    since, and has exactly one entry at that moment. *)
Definition counts_one (st : state) (r : request) : bool :=
  match r with
  | Join s u => negb (has_entry (studentId u) (online_users (db st)))
  | Disconnect s =>
      bool_decide (is_Some (connectedUsers st !! s))
      && (length (rows_on s (online_users (db st))) =? 1)%nat
  | _ => true
  end.

(** A run, from the state [st], in which every join and every leave
    counts for one, and no join or leave comes after a handler has
    thrown. *)
Fixpoint orderly (st : state) (tr : list input) : bool :=
  match tr with
  | [] => true
  | i :: tr' =>
      match step st i with
      | Returned st' _ => counts_one st (req i) && orderly st' tr'
      | Uncaught _ => (joins tr' + leaves tr' =? 0)%nat
      end
  end.

(** Rows of [online_users], and entries of the list, of one user. *)
Definition rows_of (k : string) (rows : list online_row) : list online_row :=
  List.filter (same_key (Some k)) rows.

Definition entries_of (k : string) (l : list user_entry) : list user_entry :=
  List.filter (fun e => bool_decide (ue_studentId e = Some k)) l.


(** The calendar date [YYYY-MM-DD] of an instant. *)
Definition day_text (ms : Z) : string :=
  pad 4 (year_of ms) +:+ "-" +:+ pad 2 (month_of ms) +:+ "-" +:+ pad 2 (day_of ms).

(** Instants whose year has four digits. *)
Definition four_digit_year (ms : Z) : Prop := 0 <= year_of ms <= 9999.

Fixpoint all_digits (s : string) : bool :=
  match s with
  | String c s' => is_digit c && all_digits s'
  | EmptyString => true
  end.


(** The integers JavaScript numbers hold exactly, on which the printing
    and parsing of numbers above are exact; [None] is [NaN]. *)
Definition safe_integer (n : option Z) : Prop :=
  match n with
  | Some z => Z.abs z <= 9007199254740991
  | None => True
  end.

(** ** The address shown at start-up *)

(** One entry of [os.networkInterfaces()]. *)
Record net_alias := {
  family : string;
  address : string;
  internal : bool
}.

(** The test of the inner loop of [getLocalIP]. *)
Definition external_ipv4 (alias : net_alias) : bool :=
  (family alias =? "IPv4")%string
  && negb (address alias =? "127.0.0.1")%string
  && negb (internal alias).

(** The inner loop: the aliases of one interface, in order. *)
Fixpoint first_external (iface : list net_alias) : option string :=
  match iface with
  | [] => None
  | alias :: rest =>
      if external_ipv4 alias then Some (address alias) else first_external rest
  end.

(** [getLocalIP()], on the interfaces in the order [for ... in] visits
    them. *)
Fixpoint getLocalIP (interfaces : list (string * list net_alias)) : string :=
  match interfaces with
  | [] => "127.0.0.1"
  | (devName, iface) :: rest =>
      match first_external iface with
      | Some a => a
      | None => getLocalIP rest
      end
  end.

(** ** Accounts: the table [users], [createDefaultUsers], [/api/login] *)

(** Row of [users]; [student_id] is [UNIQUE NOT NULL], [password]
    (the bcrypt hash) is [NOT NULL]. *)
Record user_row := {
  acct_id : Z;
  acct_student_id : string;
  acct_password : string;
  acct_name : option string;
  acct_created_at : string;
  acct_last_login : option string
}.

Definition has_student_id (sid : string) (u : user_row) : bool :=
  (acct_student_id u =? sid)%string.

(** [INSERT OR IGNORE INTO users (student_id, password, name) VALUES
    (?, ?, ?)]: nothing happens when the student id is taken. [rowid]
    is the id the engine gives the new row: with [AUTOINCREMENT], an id
    above all those the table has used, and an insert that was ignored
    has used one as well. The model leaves the number to the engine. *)
Definition insert_or_ignore_user (users : list user_row) (sid hash nm : string)
    (now rowid : Z) : list user_row :=
  if existsb (has_student_id sid) users then users
  else (users ++ [{| acct_id := rowid; acct_student_id := sid;
                     acct_password := hash; acct_name := Some nm;
                     acct_created_at := CURRENT_TIMESTAMP now;
                     acct_last_login := None |}])%list.

(** [{ studentId, password, name }] of [defaultUsers]. *)
Definition defaultUsers : list (string * string * string) :=
  [("2021001", "123456", "张三"); ("2021002", "123456", "李四");
   ("2021003", "123456", "王五"); ("2021004", "123456", "赵六")].

(** The body of the [forEach] of [createDefaultUsers], for one default
    user. [hashSync salt password] is [bcrypt.hashSync(password, 10)]
    when bcrypt draws [salt]; [salt_of] gives the salt drawn for each
    default user, [rowid_of] the id the engine has for its row. *)
Definition insert_default (hashSync : string -> string -> string)
    (salt_of : string -> string) (rowid_of : string -> Z) (now : Z)
    (users : list user_row) (user : string * string * string) : list user_row :=
  let '(studentId, password, name) := user in
  let hashedPassword := hashSync (salt_of studentId) password in
  insert_or_ignore_user users studentId hashedPassword name now (rowid_of studentId).

(** [createDefaultUsers()]. The four inserts are queued in one turn
    and the handle does not serialize them: [order] is [defaultUsers]
    in the order in which the engine runs the inserts. *)
Definition createDefaultUsers (hashSync : string -> string -> string)
    (salt_of : string -> string) (rowid_of : string -> Z)
    (order : list (string * string * string)) (users : list user_row) (now : Z)
    : list user_row :=
  fold_left (insert_default hashSync salt_of rowid_of now) order users.

(** The orders in which the inserts of [createDefaultUsers] can run. *)
Definition order_of_inserts (order : list (string * string * string)) : Prop :=
  Permutation order defaultUsers.

(** [SELECT * FROM users WHERE student_id = ?] through [db.get]: the
    first row found, if any. *)
Definition get_user (users : list user_row) (sid : string) : option user_row :=
  List.find (has_student_id sid) users.

(** [UPDATE users SET last_login = CURRENT_TIMESTAMP WHERE student_id = ?] *)
Definition update_last_login (users : list user_row) (sid : string) (now : Z)
    : list user_row :=
  map (fun u =>
         if has_student_id sid u
         then {| acct_id := acct_id u; acct_student_id := acct_student_id u;
                 acct_password := acct_password u; acct_name := acct_name u;
                 acct_created_at := acct_created_at u;
                 acct_last_login := Some (CURRENT_TIMESTAMP now) |}
         else u) users.

(** [req.body] of [POST /api/login]. *)
Record login_body := {
  login_studentId : option string;
  login_password : option string
}.

Inductive login_response :=
| login_ok (user : user_info)
| login_refused (status : Z) (message : string).

(** [POST /api/login]. [compareSync] is [bcrypt.compareSync]. *)
Definition api_login (compareSync : string -> string -> bool) (users : list user_row)
    (body : login_body) (now : Z) (io_err : bool) : login_response * list user_row :=
  if negb (truthy_text (login_studentId body)) || negb (truthy_text (login_password body))
  then (login_refused 400 "学号和密码不能为空", users)
  else if io_err then (login_refused 500 "服务器内部错误", users)
  else
    match get_user users (to_text (login_studentId body)) with
    | None => (login_refused 401 "学号不存在", users)
    | Some user =>
        if negb (compareSync (to_text (login_password body)) (acct_password user))
        then (login_refused 401 "密码错误", users)
        else (login_ok {| studentId := Some (acct_student_id user);
                          name := acct_name user |},
              update_last_login users (to_text (login_studentId body)) now)
    end.

(** The columns of [users] that a login must not change. *)
Definition account_of (u : user_row) : Z * string * string * option string * string :=
  (acct_id u, acct_student_id u, acct_password u, acct_name u, acct_created_at u).

(** The row [r] is what the event [i] stores: [i] is a [sendMessage]
    with a user, on which the engine does not fail, and [r] has the
    student id, the name and the content of its payload and the clock of
    its handling as [toISOString] prints it. *)
Definition sent_by (i : input) (r : message_row) : Prop :=
  exists sock data user,
    req i = SendMessage sock data
    /\ user_of data = Some user
    /\ studentId user = Some (student_id r)
    /\ name user = user_name r
    /\ content_of data = Some (content r)
    /\ io_err_of i = false
    /\ timestamp r = toISOString (now_of i).

(** A row whose timestamp is the text [toISOString] gives for an
    instant in a four-digit year, as [sendMessage] writes it. *)
Definition written_by_sendMessage (r : message_row) : Prop :=
  exists t, four_digit_year t /\ timestamp r = toISOString t.

(** The test of the two date filters on the calendar date of a row, the
    first ten characters of its timestamp: not before [from], and not
    after [to] when an end date is given. *)
Definition in_date_range (from : string) (to : option string) (r : message_row) : bool :=
  let day := substring 0 10 (timestamp r) in
  String.leb from day && (if truthy_text to then String.leb day (to_text to) else true).

(** ** The calendar and the clock as numbers *)

(** The calendar date of a day number as one number, [YYYYMMDD]. *)
Definition date_number (z : Z) : Z :=
  let '(y, m, d) := civil_from_days z in y * 10000 + m * 100 + d.

(** The three steps of [civil_from_days] on a day of a 400-year era:
    the year of the era, the day on which a year of the era starts,
    and month and day of a day of the year as [MMDD], counted in the
    next year ([+ 10000]) for January and February. *)
Definition year_of_era (doe : Z) : Z :=
  (doe - doe / 1460 + doe / 36524 - doe / 146096) / 365.

Definition year_start (y : Z) : Z := 365 * y + y / 4 - y / 100.

Definition month_day (doy : Z) : Z :=
  let mp := (5 * doy + 2) / 153 in
  let d := doy - (153 * mp + 2) / 5 + 1 in
  let m := if mp <? 10 then mp + 3 else mp - 9 in
  (if m <=? 2 then 10000 else 0) + m * 100 + d.

(** Comparison by a first key, then by the rest. *)
Definition compare_then (c rest : comparison) : comparison :=
  match c with Eq => rest | _ => c end.

(** The fields of [toISOString] compared from the year down. *)
Definition compare_fields (t1 t2 : Z) : comparison :=
  compare_then (year_of t1 ?= year_of t2)
    (compare_then (month_of t1 ?= month_of t2)
       (compare_then (day_of t1 ?= day_of t2)
          (compare_then (hours_of t1 ?= hours_of t2)
             (compare_then (minutes_of t1 ?= minutes_of t2)
                (compare_then (seconds_of t1 ?= seconds_of t2)
                   (millis_of t1 ?= millis_of t2)))))).

(** The clock the handlers read along a run starts at [lo] or later,
    never goes back, and shows four-digit years. *)
Fixpoint steady_clock (lo : Z) (tr : list input) : bool :=
  match tr with
  | [] => true
  | i :: tr' =>
      (lo <=? now_of i) && (0 <=? year_of (now_of i)) && (year_of (now_of i) <=? 9999)
      && steady_clock (now_of i) tr'
  end.

(** A row stamped by [sendMessage] at an instant up to [hi]. *)
Definition stamped_until (hi : Z) (r : message_row) : Prop :=
  exists t, four_digit_year t /\ t <= hi /\ timestamp r = toISOString t.

(** The request of a history without any filter. *)
Definition whole_history : date_range :=
  {| days := None; startDate := None; endDate := None |}.


(** ** Text order *)

Lemma ascii_compare_lt a b : Ascii.compare a b = Lt <-> (N_of_ascii a < N_of_ascii b)%N.
Proof. unfold Ascii.compare. apply N.compare_lt_iff. Qed.

Lemma ascii_compare_eq a b : Ascii.compare a b = Eq <-> a = b.
Proof.
  unfold Ascii.compare. rewrite N.compare_eq_iff. split; [|congruence].
  intros H. rewrite <- (ascii_N_embedding a), <- (ascii_N_embedding b). congruence.
Qed.

Lemma compare_lt_trans s1 : forall s2 s3,
  String.compare s1 s2 = Lt -> String.compare s2 s3 = Lt -> String.compare s1 s3 = Lt.
Proof.
  induction s1 as [|a s1 IH]; intros [|b s2] [|c s3]; simpl; try congruence.
  destruct (Ascii.compare a b) eqn:Hab; try congruence;
    destruct (Ascii.compare b c) eqn:Hbc; try congruence; intros H1 H2.
  - apply ascii_compare_eq in Hab, Hbc. subst.
    replace (Ascii.compare c c) with Eq by (symmetry; now apply ascii_compare_eq).
    eauto.
  - apply ascii_compare_eq in Hab. subst. now rewrite Hbc.
  - apply ascii_compare_eq in Hbc. subst. now rewrite Hab.
  - pose proof (proj1 (ascii_compare_lt _ _) Hab).
    pose proof (proj1 (ascii_compare_lt _ _) Hbc).
    replace (Ascii.compare a c) with Lt; [done|].
    symmetry. apply ascii_compare_lt. lia.
Qed.

Lemma ltb_trans s1 s2 s3 :
  String.ltb s1 s2 = true -> String.ltb s2 s3 = true -> String.ltb s1 s3 = true.
Proof.
  unfold String.ltb. intros H1 H2.
  destruct (String.compare s1 s2) eqn:E1; try discriminate.
  destruct (String.compare s2 s3) eqn:E2; try discriminate.
  now rewrite (compare_lt_trans _ _ _ E1 E2).
Qed.

Lemma not_ltb_cases s1 s2 :
  String.ltb s1 s2 = false -> String.ltb s2 s1 = true \/ s1 = s2.
Proof.
  unfold String.ltb. rewrite (String.compare_antisym s1 s2).
  destruct (String.compare s2 s1) eqn:E; simpl; try discriminate.
  - right. symmetry. now apply String.compare_eq_iff.
  - now left.
Qed.

(** ** The sorter *)

Section Sorter.
Context {A : Type} (key : A -> string) (rank : A -> Z).

Lemma sorter_insert_perm x l : Permutation (sorter_insert key x l) (x :: l).
Proof.
  induction l as [|y l IH]; simpl; [done|].
  destruct (String.ltb (key x) (key y)); [done|].
  rewrite IH. apply perm_swap.
Qed.

Lemma sorter_fold_perm l : forall sorted,
  Permutation (fold_left (fun sorted x => sorter_insert key x sorted) l sorted)
    (sorted ++ l).
Proof.
  induction l as [|x l IH]; intros sorted; simpl.
  - now rewrite app_nil_r.
  - rewrite IH, sorter_insert_perm. apply Permutation_middle.
Qed.

Lemma order_by_perm l : Permutation (order_by key l) l.
Proof. apply (sorter_fold_perm l []). Qed.

Lemma order_by_length l : length (order_by key l) = length l.
Proof. apply Permutation_length, order_by_perm. Qed.

Lemma lex_le_trans a b c :
  lex_le key rank a b -> lex_le key rank b c -> lex_le key rank a c.
Proof.
  unfold lex_le. intros [H1|[H1 H1']] [H2|[H2 H2']].
  - left. eapply ltb_trans; eauto.
  - left. now rewrite <- H2.
  - left. now rewrite H1.
  - right. split; [congruence|lia].
Qed.

Lemma sorter_insert_hd x y l :
  lex_le key rank y x -> HdRel (lex_le key rank) y l ->
  HdRel (lex_le key rank) y (sorter_insert key x l).
Proof.
  intros Hyx Hl. destruct l as [|z l]; simpl; [now constructor|].
  destruct (String.ltb (key x) (key z)); constructor; [done|].
  now inversion Hl.
Qed.

(** A row that arrives after the rows of the sorter, all of smaller
    rank, is filed in its place. *)
Lemma sorter_insert_sorted x l :
  Sorted (lex_le key rank) l -> List.Forall (fun y => rank y < rank x) l ->
  Sorted (lex_le key rank) (sorter_insert key x l).
Proof.
  induction l as [|y l IH]; simpl; intros Hs Hr.
  - repeat constructor.
  - inversion Hs as [|? ? Hs' Hhd]; subst. inversion Hr as [|? ? Hyx Hr']; subst.
    destruct (String.ltb (key x) (key y)) eqn:E.
    + constructor; [done|]. constructor. now left.
    + constructor; [now apply IH|].
      apply sorter_insert_hd; [|done].
      destruct (not_ltb_cases _ _ E) as [Hlt|Heq]; [now left|].
      right. split; [done|lia].
Qed.

Lemma sorter_fold_sorted l : forall sorted,
  Sorted (lex_le key rank) sorted ->
  StronglySorted (fun a b => rank a < rank b) l ->
  (forall a x, In a sorted -> In x l -> rank a < rank x) ->
  Sorted (lex_le key rank)
    (fold_left (fun sorted x => sorter_insert key x sorted) l sorted).
Proof.
  induction l as [|x l IH]; intros sorted Hs Hl Hlt; simpl; [done|].
  apply StronglySorted_inv in Hl as [Hl Hx]. apply IH; [|done|].
  - apply sorter_insert_sorted; [done|].
    apply List.Forall_forall. intros a Ha. apply Hlt; [done|now left].
  - intros a y Ha Hy.
    apply (Permutation_in _ (sorter_insert_perm x sorted)) in Ha.
    destruct Ha as [<-|Ha].
    + rewrite List.Forall_forall in Hx. now apply Hx.
    + apply Hlt; [done|now right].
Qed.

Lemma order_by_sorted l :
  StronglySorted (fun a b => rank a < rank b) l ->
  Sorted (lex_le key rank) (order_by key l).
Proof.
  intros Hl. apply sorter_fold_sorted; [constructor|done|]. intros a x [].
Qed.

End Sorter.

Lemma StronglySorted_filter {A} (R : A -> A -> Prop) (f : A -> bool) l :
  StronglySorted R l -> StronglySorted R (List.filter f l).
Proof.
  induction 1 as [|x l Hl IH Hx]; simpl; [constructor|].
  destruct (f x); [|done]. constructor; [done|].
  rewrite List.Forall_forall in *. intros y Hy. apply Hx.
  now apply List.filter_In in Hy.
Qed.

Lemma Sorted_take {A} (R : A -> A -> Prop) n l : Sorted R l -> Sorted R (take n l).
Proof.
  revert l. induction n as [|n IH]; intros l Hs; [constructor|].
  destruct l as [|x l]; simpl; [constructor|].
  inversion Hs as [|? ? Hs' Hhd]; subst. constructor; [now apply IH|].
  destruct l as [|y l]; [destruct n; constructor|].
  destruct n; constructor. now inversion Hhd.
Qed.

Lemma Sorted_map {A B} (R : B -> B -> Prop) (f : A -> B) l :
  Sorted (fun a b => R (f a) (f b)) l -> Sorted R (map f l).
Proof.
  induction 1 as [|x l Hl IH Hx]; simpl; [constructor|].
  constructor; [done|]. destruct l; simpl; constructor. now inversion Hx.
Qed.

(** ** The statements *)

Lemma append_assoc (a b c : string) : (a +:+ b) +:+ c = a +:+ (b +:+ c).
Proof.
  induction a as [|x a IH]; [done|].
  change (String x ((a +:+ b) +:+ c) = String x (a +:+ (b +:+ c))). now rewrite IH.
Qed.

Lemma append_nil_r (a : string) : a +:+ EmptyString = a.
Proof.
  induction a as [|x a IH]; [done|].
  change (String x (a +:+ EmptyString) = String x a). now rewrite IH.
Qed.

Lemma strip_prefix_app p s : strip_prefix p (p +:+ s) = Some s.
Proof.
  induction p as [|x p IH]; [done|].
  change (strip_prefix (String x p) (String x (p +:+ s)) = Some s).
  simpl. now rewrite Ascii.eqb_refl.
Qed.

Lemma quote_free_app a b :
  quote_free a = true -> quote_free b = true -> quote_free (a +:+ b) = true.
Proof.
  intros Ha Hb. induction a as [|x a IH]; [done|].
  change (quote_free (String x (a +:+ b)) = true).
  simpl in *. apply andb_prop in Ha as [-> Ha]. now rewrite IH.
Qed.

Lemma until_quote_app m r :
  quote_free m = true ->
  until_quote (m +:+ r) = (m +:+ fst (until_quote r), snd (until_quote r)).
Proof.
  induction m as [|c m IH]; intros H.
  - change (until_quote r = (fst (until_quote r), snd (until_quote r))).
    now destruct (until_quote r).
  - change (until_quote (String c (m +:+ r))
            = (String c (m +:+ fst (until_quote r)), snd (until_quote r))).
    simpl in *. apply andb_prop in H as [Hc Hm]. apply negb_true_iff in Hc.
    rewrite Hc. now rewrite (IH Hm).
Qed.

Lemma uint_quote_free d : quote_free (NilEmpty.string_of_uint d) = true.
Proof. induction d; simpl; auto. Qed.

Lemma number_to_string_quote_free n : quote_free (number_to_string n) = true.
Proof.
  destruct n as [z|]; [|reflexivity]. unfold number_to_string, NilZero.string_of_int.
  destruct (Z.to_int z) as [d|d]; unfold NilZero.string_of_uint;
    destruct d; simpl; auto using uint_quote_free.
Qed.

Lemma since_text_parts n :
  since_text n
  = select_messages +:+ where_since_open +:+ ("-" +:+ n +:+ " days")
      +:+ where_since_close +:+ order_limit.
Proof. unfold since_text. rewrite !append_assoc. reflexivity. Qed.

Lemma nul_free_app a b :
  nul_free a = true -> nul_free b = true -> nul_free (a +:+ b) = true.
Proof.
  intros Ha Hb. induction a as [|x a IH]; [done|].
  change (nul_free (String x (a +:+ b)) = true).
  simpl in *. apply andb_prop in Ha as [-> Ha]. now rewrite IH.
Qed.

Lemma c_string_nul_free s : nul_free s = true -> c_string s = s.
Proof.
  induction s as [|c s IH]; simpl; [done|]. intros [Hc Hs]%andb_prop.
  apply negb_true_iff in Hc. rewrite Hc. now rewrite IH.
Qed.

Lemma uint_nul_free d : nul_free (NilEmpty.string_of_uint d) = true.
Proof. induction d; simpl; auto. Qed.

Lemma number_to_string_nul_free n : nul_free (number_to_string n) = true.
Proof.
  destruct n as [z|]; [|reflexivity]. unfold number_to_string, NilZero.string_of_int.
  destruct (Z.to_int z) as [d|d]; unfold NilZero.string_of_uint;
    destruct d; simpl; auto using uint_nul_free.
Qed.

Lemma prepare_since n :
  quote_free n = true -> nul_free n = true ->
  modelled (parse_modifier ("-" +:+ n +:+ " days")) = true ->
  prepare (since_text n)
  = Some (server_statement (WhereSince ("-" +:+ n +:+ " days"))).
Proof.
  intros Hn Hz Hm. unfold prepare.
  rewrite c_string_nul_free
    by (unfold since_text; repeat (apply nul_free_app; [|try done]); done).
  rewrite since_text_parts, strip_prefix_app.
  replace (strip_prefix where_between
             (where_since_open +:+ ("-" +:+ n +:+ " days") +:+ where_since_close
                +:+ order_limit)) with (@None string) by reflexivity.
  replace (strip_prefix where_from
             (where_since_open +:+ ("-" +:+ n +:+ " days") +:+ where_since_close
                +:+ order_limit)) with (@None string) by reflexivity.
  rewrite strip_prefix_app, (until_quote_app ("-" +:+ n +:+ " days")).
  - change (until_quote (where_since_close +:+ order_limit))
      with (EmptyString, where_since_close +:+ order_limit).
    cbn [fst snd]. rewrite append_nil_r, strip_prefix_app, Hm. reflexivity.
  - apply (quote_free_app "-"); [done|]. now apply quote_free_app.
Qed.

(** ** The days filter *)

Lemma append_cons c (a b : string) : String c a +:+ b = String c (a +:+ b).
Proof. reflexivity. Qed.

Lemma length_append (a b : string) :
  String.length (a +:+ b) = (String.length a + String.length b)%nat.
Proof.
  induction a as [|c a IH]; [done|]. rewrite append_cons. simpl. now rewrite IH.
Qed.

Lemma length_pad n z : String.length (pad n z) = n.
Proof.
  revert z. induction n as [|n IH]; intros z; simpl; [done|].
  rewrite length_append, IH. simpl. lia.
Qed.

Lemma length_day_text ms : String.length (day_text ms) = 10%nat.
Proof. unfold day_text. now rewrite !length_append, !length_pad. Qed.

Lemma compare_append a : forall b x y,
  String.length a = String.length b ->
  String.compare (a +:+ x) (b +:+ y)
  = match String.compare a b with Eq => String.compare x y | c => c end.
Proof.
  induction a as [|c a IH]; intros [|d b] x y Hlen; try discriminate; [done|].
  rewrite !append_cons. simpl. destruct (Ascii.compare c d); try done.
  apply IH. now injection Hlen.
Qed.

Lemma toISOString_day t :
  four_digit_year t -> exists rest, toISOString t = day_text t +:+ "T" +:+ rest.
Proof.
  intros [Hlo Hhi]. unfold toISOString, day_text, iso_year.
  replace ((0 <=? year_of t) && (year_of t <=? 9999)) with true
    by (symmetry; apply andb_true_intro; split; lia).
  eexists. rewrite !append_assoc. reflexivity.
Qed.

Lemma datetime_text_day t :
  four_digit_year t -> exists rest, datetime_text t = day_text t +:+ " " +:+ rest.
Proof.
  intros [Hlo Hhi]. unfold datetime_text, day_text.
  replace (year_of t <? 0) with false by (symmetry; apply Z.ltb_ge; lia).
  rewrite Z.abs_eq by lia. eexists. rewrite !append_assoc. reflexivity.
Qed.

(** A stored timestamp and a bound of [datetime] compare as their
    calendar dates do: behind the date the timestamp has a [T] where the
    bound has a space. *)
Lemma bound_le_timestamp c t :
  four_digit_year c -> four_digit_year t ->
  String.leb (datetime_text c) (toISOString t) = String.leb (day_text c) (day_text t).
Proof.
  intros Hc Ht. destruct (toISOString_day t Ht) as [rt ->].
  destruct (datetime_text_day c Hc) as [rc ->]. unfold String.leb.
  rewrite compare_append by now rewrite !length_day_text.
  now destruct (String.compare (day_text c) (day_text t)).
Qed.

Lemma leb_refl s : String.leb s s = true.
Proof.
  unfold String.leb. replace (String.compare s s) with Eq; [done|].
  symmetry. induction s as [|a s IH]; simpl; [done|].
  now rewrite (proj2 (ascii_compare_eq a a) eq_refl).
Qed.

Lemma span_digits_append s r :
  all_digits s = true ->
  span_digits (s +:+ r) = (s +:+ fst (span_digits r), snd (span_digits r)).
Proof.
  induction s as [|c s IH]; intros H.
  - change (span_digits r = (fst (span_digits r), snd (span_digits r))).
    now destruct (span_digits r).
  - rewrite !append_cons. simpl in *. apply andb_prop in H as [-> Hs].
    now rewrite (IH Hs).
Qed.

Lemma uint_all_digits d : all_digits (NilEmpty.string_of_uint d) = true.
Proof. induction d; simpl; auto. Qed.

Lemma leading_digits_acc d : forall p : positive,
  leading_digits 10 (Some (Z.pos p)) (NilEmpty.string_of_uint d)
  = Some (Z.pos (Pos.of_uint_acc d p)).
Proof.
  induction d; intros p; simpl; [done|..];
    match goal with
    | |- leading_digits 10 (Some ?a) _ = Some (Z.pos (Pos.of_uint_acc _ ?b)) =>
        replace a with (Z.pos b) by lia; apply IHd
    end.
Qed.

Lemma leading_digits_uint d :
  leading_digits 10 (Some 0) (NilEmpty.string_of_uint d) = Some (Z.of_N (Pos.of_uint d)).
Proof.
  induction d; simpl; [done|exact IHd|..]; apply leading_digits_acc.
Qed.

Lemma decimal_value_uint u :
  u <> Decimal.Nil ->
  decimal_value (NilZero.string_of_uint u) = Some (Z.of_N (Pos.of_uint u)).
Proof.
  intros Hu. destruct u; [done|..];
    match goal with
    | |- decimal_value (NilZero.string_of_uint ?u) = _ => exact (leading_digits_uint u)
    end.
Qed.

Lemma decimal_value_number n :
  0 <= n -> decimal_value (number_to_string (Some n)) = Some n.
Proof.
  intros Hn. unfold number_to_string, NilZero.string_of_int.
  destruct n as [|p|p]; [reflexivity| |lia].
  change (decimal_value (NilZero.string_of_uint (Pos.to_uint p)) = Some (Z.pos p)).
  rewrite decimal_value_uint by apply DecimalPos.Unsigned.to_uint_nonnil.
  now rewrite DecimalPos.Unsigned.of_to.
Qed.

Lemma number_all_digits n : 0 <= n -> all_digits (number_to_string (Some n)) = true.
Proof.
  intros Hn. unfold number_to_string, NilZero.string_of_int.
  destruct n as [|p|p]; [reflexivity| |lia].
  change (all_digits (NilZero.string_of_uint (Pos.to_uint p)) = true).
  unfold NilZero.string_of_uint.
  destruct (Pos.to_uint p); [reflexivity|..]; apply uint_all_digits.
Qed.

Lemma number_text_shape n :
  0 <= n ->
  exists c r, number_to_string (Some n) = String c r /\ is_digit c = true.
Proof.
  intros Hn. pose proof (decimal_value_number n Hn) as Hv.
  pose proof (number_all_digits n Hn) as Hd.
  destruct (number_to_string (Some n)) as [|c r]; [discriminate Hv|].
  exists c, r. split; [reflexivity|]. simpl in Hd. now apply andb_prop in Hd as [-> _].
Qed.

(** The modifier written for a number of days that is not negative:
    read back as the offset, or refused when the number is too large. *)
Lemma parse_modifier_number n :
  0 <= n ->
  parse_modifier ("-" +:+ number_to_string (Some n) +:+ " days")
  = if n <? 5373485 then Offset (- n) else NotAModifier.
Proof.
  intros Hn. destruct (number_text_shape n Hn) as (c & r & Htext & Hc).
  rewrite append_cons. change (EmptyString +:+ ?x) with x.
  pose proof (span_digits_append (number_to_string (Some n)) " days"
                (number_all_digits n Hn)) as Hspan.
  change (span_digits " days") with (EmptyString, " days") in Hspan.
  cbn [fst snd] in Hspan. rewrite append_nil_r in Hspan.
  pose proof (decimal_value_number n Hn) as Hv.
  rewrite Htext in *. rewrite append_cons in *.
  unfold parse_modifier. cbn [is_sign Ascii.eqb Bool.eqb orb andb].
  rewrite Hc, Hspan, String.eqb_refl, Hv. reflexivity.
Qed.

(** The modifier written for [n] days is read back as [-n]. *)
Lemma parse_modifier_days n :
  0 <= n < 5373485 ->
  parse_modifier ("-" +:+ number_to_string (Some n) +:+ " days") = Offset (- n).
Proof.
  intros [Hlo Hhi]. rewrite parse_modifier_number by done.
  now replace (n <? 5373485) with true by (symmetry; lia).
Qed.

Lemma number_to_string_negative n :
  n < 0 -> number_to_string (Some n) = "-" +:+ number_to_string (Some (- n)).
Proof. intros Hn. destruct n as [|p|p]; [lia|lia|reflexivity]. Qed.

(** A sign where the number should start: the engine refuses the
    modifier. *)
Lemma parse_modifier_double_minus s t :
  parse_modifier ("-" +:+ ("-" +:+ s) +:+ t) = NotAModifier.
Proof. reflexivity. Qed.

(** Every modifier written for a number, or for what [parseInt] gives,
    is one the model reads. *)
Lemma number_modifier_modelled v :
  modelled (parse_modifier ("-" +:+ number_to_string v +:+ " days")) = true.
Proof.
  destruct v as [n|]; [|reflexivity].
  destruct (Z_lt_le_dec n 0) as [Hneg|Hpos].
  - now rewrite number_to_string_negative, parse_modifier_double_minus.
  - rewrite parse_modifier_number by done. now destruct (n <? 5373485).
Qed.

(** ** History queries *)

Lemma truthy_differs v : truthy_value v = true -> differs_from_zero v = true.
Proof. now destruct v as [[]|]. Qed.

Lemma getMessages_query_cases (d : date_range) :
  getMessages_query d =
    if truthy_value (days d) then (since_text (template_value (days d)), [])
    else if truthy_text (startDate d) && truthy_text (endDate d)
         then (between_text, [startDate d; endDate d])
    else if truthy_text (startDate d) then (from_text, [startDate d])
    else (all_text, []).
Proof.
  unfold getMessages_query.
  destruct (truthy_value (days d)) eqn:Ht.
  { now rewrite (truthy_differs _ Ht). }
  cbn [andb].
  destruct (truthy_text (startDate d)); [|reflexivity].
  destruct (truthy_text (endDate d)); reflexivity.
Qed.

Lemma api_messages_query_cases (q : req_query) :
  api_messages_query q =
    if truthy_text (q_days q) && not_identical (q_days q) "0"
    then (since_text (number_to_string (parseInt (to_text (q_days q)))), [])
    else if truthy_text (q_startDate q) && truthy_text (q_endDate q)
         then (between_text, [q_startDate q; q_endDate q])
    else if truthy_text (q_startDate q) then (from_text, [q_startDate q])
    else (all_text, []).
Proof.
  unfold api_messages_query.
  destruct (truthy_text (q_days q) && not_identical (q_days q) "0");
    [reflexivity|].
  destruct (truthy_text (q_startDate q)); [|reflexivity].
  destruct (truthy_text (q_endDate q)); reflexivity.
Qed.

Lemma prepare_number v :
  prepare (since_text (number_to_string v))
  = Some (server_statement (WhereSince ("-" +:+ number_to_string v +:+ " days"))).
Proof.
  apply prepare_since;
    [apply number_to_string_quote_free | apply number_to_string_nul_free
    | apply number_modifier_modelled].
Qed.

Lemma getMessages_query_accepted d :
  plain_days (days d) = true -> accepted (getMessages_query d).
Proof.
  intros Hplain. rewrite getMessages_query_cases. unfold accepted.
  destruct (truthy_value (days d)) eqn:Ht.
  { destruct (days d) as [[n|x|[]|x]|]; try discriminate.
    - eexists. split; [apply (prepare_number (Some n))|reflexivity].
    - eexists. split; reflexivity. }
  destruct (truthy_text (startDate d) && truthy_text (endDate d)).
  { exists WhereBetween. split; reflexivity. }
  destruct (truthy_text (startDate d)).
  { exists WhereFrom. split; reflexivity. }
  exists WhereNone. split; reflexivity.
Qed.

Lemma api_messages_query_accepted q : accepted (api_messages_query q).
Proof.
  rewrite api_messages_query_cases. unfold accepted.
  destruct (truthy_text (q_days q) && not_identical (q_days q) "0").
  { eexists. split; [apply prepare_number|reflexivity]. }
  destruct (truthy_text (q_startDate q) && truthy_text (q_endDate q)).
  { exists WhereBetween. split; reflexivity. }
  destruct (truthy_text (q_startDate q)).
  { exists WhereFrom. split; reflexivity. }
  exists WhereNone. split; reflexivity.
Qed.

Lemma message_le_trans a b c : message_le a b -> message_le b c -> message_le a c.
Proof. apply (lex_le_trans m_timestamp m_id). Qed.

Lemma selected_sorted (f : message_row -> bool) rows :
  ids_ascending rows ->
  let l := map formatMessage (take 1000 (order_by timestamp (List.filter f rows))) in
  (length l <= 1000)%nat /\ StronglySorted message_le l.
Proof.
  intros Hasc l. split.
  - subst l. rewrite length_map, length_take. lia.
  - apply Sorted_StronglySorted; [exact message_le_trans|].
    apply Sorted_map, Sorted_take.
    apply (order_by_sorted timestamp id), StronglySorted_filter, Hasc.
Qed.

(** What the engine answers to a statement the handlers mean. *)
Lemma all_messages_accepted st qp now :
  accepted qp ->
  exists w,
    all_messages (db st) (fst qp) (snd qp) now false
    = Some (take 1000 (order_by timestamp
                         (List.filter (selects w (snd qp) now) (messages (db st))))).
Proof.
  intros (w & Hw & Hp). exists w. unfold all_messages. cbv iota. rewrite Hw.
  cbn [server_statement where_of descending capped]. now rewrite Hp.
Qed.

(** C2 fails on the code. Over the socket, [days] is printed into the
    statement as it comes, with no [parseInt] as over HTTP. With the
    text [rewriting_days] the statement the engine reads orders by
    descending timestamp and has no limit, the rest of the handler's
    text being a comment: two messages come back newest first, and of
    a log of 1001 messages, sent one millisecond apart, all 1001 come
    back. *)
Theorem days_text_rewrites_history_query :
  let d := {| days := Some rewriting_days; startDate := None; endDate := None |} in
  let send t text :=
    {| req := SendMessage "c1"
                {| content_of := Some text;
                   user_of := Some {| studentId := Some "2021001";
                                      name := Some "张三" |} |};
       now_of := t; io_err_of := false; overtaken_of := false |} in
  let message n text ts :=
    {| m_id := n; m_content := Some text; m_timestamp := ts;
       m_user := {| studentId := Some "2021001"; name := Some "张三" |} |} in
  let two := run initial [send 1704096000000 "one"; send 1704096060000 "two"] in
  let many :=
    run initial (map (fun n => send (1704096000000 + Z.of_nat n) "m") (seq 0 1001)) in
  let older := message 1 "one" "2024-01-01T08:00:00.000Z" in
  let newer := message 2 "two" "2024-01-01T08:01:00.000Z" in
  getMessages_query d
  = ("SELECT * FROM messages WHERE timestamp >= datetime('now', '-1 days') ORDER BY timestamp DESC -- days') ORDER BY timestamp ASC LIMIT 1000",
     [])
  /\ prepare (fst (getMessages_query d))
     = Some {| where_of := WhereSince "-1 days"; descending := true; capped := false |}
  /\ on_getMessages two "c1" d 1704096120000 false
     = (two, [socket_emit "c1" (messageHistory [newer; older])])
  /\ ~ StronglySorted message_le [newer; older]
  /\ match snd (on_getMessages many "c1" d 1704096120000 false) with
     | [socket_emit _ (messageHistory l)] => length l = 1001%nat
     | _ => False
     end.
Proof.
  intros d send message two many older newer.
  split; [reflexivity|]. split; [vm_compute; reflexivity|].
  split; [vm_compute; reflexivity|]. split.
  - intros H. inversion H as [|? ? _ Hall]; subst.
    inversion Hall as [|? ? [Hlt|[Heq _]] _]; subst.
    + vm_compute in Hlt. discriminate Hlt.
    + vm_compute in Heq. discriminate Heq.
  - vm_compute. reflexivity.
Qed.

(** X20. History is capped and sorted whenever no text of the client is
    printed into the statement: over HTTP for any query, and over the
    socket when [days] is absent, an integer or a boolean, the answer
    has at most 1000 messages in ascending order of
    timestamp, messages of equal timestamp in ascending order of id;
    when the engine fails the answer is the error instead. *)
Theorem history_capped_and_sorted (st : state) (sock : socket_id) (d : date_range)
    (q : req_query) (now : Z) (io_err : bool) :
  ids_ascending (messages (db st)) ->
  plain_days (days d) = true ->
  (if io_err
   then on_getMessages st sock d now io_err
        = (st, [socket_emit sock (error "获取消息历史失败")])
   else exists l, on_getMessages st sock d now io_err
                  = (st, [socket_emit sock (messageHistory l)])
                  /\ (length l <= 1000)%nat /\ StronglySorted message_le l)
  /\ (if io_err
      then api_messages st q now io_err = json_500 "获取消息失败"
      else exists l, api_messages st q now io_err = json_ok l
                     /\ (length l <= 1000)%nat /\ StronglySorted message_le l).
Proof.
  intros Hasc Hplain. destruct io_err.
  - split.
    + unfold on_getMessages. now destruct (getMessages_query d).
    + unfold api_messages. now destruct (api_messages_query q).
  - split.
    + destruct (all_messages_accepted st _ now (getMessages_query_accepted d Hplain))
        as [w Hrows].
      unfold on_getMessages. destruct (getMessages_query d) as [sql params].
      cbn [fst snd] in Hrows. rewrite Hrows. eexists. split; [reflexivity|].
      now apply selected_sorted.
    + destruct (all_messages_accepted st _ now (api_messages_query_accepted q))
        as [w Hrows].
      unfold api_messages. destruct (api_messages_query q) as [sql params].
      cbn [fst snd] in Hrows. rewrite Hrows. eexists. split; [reflexivity|].
      now apply selected_sorted.
Qed.

Lemma history_capped_and_sorted_witness :
  let row n := {| id := n; student_id := "2021001"; user_name := Some "张三";
                  content := "hi"; timestamp := "2024-01-01T08:00:00.000Z" |} in
  let st := {| sockets := ∅; connectedUsers := ∅;
               db := {| messages := [row 1; row 2]; online_users := [] |} |} in
  let d := {| days := Some (JNumber 7); startDate := None; endDate := None |} in
  ids_ascending (messages (db st))
  /\ plain_days (days d) = true
  /\ exists l,
       on_getMessages st "c1" d 1704096000000 false
       = (st, [socket_emit "c1" (messageHistory l)])
       /\ (length l <= 1000)%nat /\ StronglySorted message_le l.
Proof.
  intros row st d.
  assert (H : ids_ascending (messages (db st))).
  { unfold ids_ascending. cbn [st db messages]. repeat constructor. }
  split; [exact H|]. split; [reflexivity|].
  exact (proj1 (history_capped_and_sorted st "c1" d
                  {| q_days := None; q_startDate := None; q_endDate := None |}
                  1704096000000 false H eq_refl)).
Defined.

(** C7. With [days] zero or absent and no start date the query has no
    filter: the answer is the whole table, in order, cut at 1000 rows;
    a table of at most 1000 messages is returned entirely. *)
Theorem no_days_no_filter (st : state) (sock : socket_id) (d : date_range)
    (q : req_query) (now : Z) :
  days d = None \/ days d = Some (JNumber 0) -> startDate d = None ->
  q_days q = None \/ q_days q = Some "0" -> q_startDate q = None ->
  on_getMessages st sock d now false
    = (st, [socket_emit sock (messageHistory (unfiltered st))])
  /\ api_messages st q now false = json_ok (unfiltered st)
  /\ ((length (messages (db st)) <= 1000)%nat ->
      Permutation (unfiltered st) (map formatMessage (messages (db st)))).
Proof.
  intros Hd Hs Hqd Hqs. split; [|split].
  - unfold on_getMessages. rewrite getMessages_query_cases, Hs.
    replace (truthy_value (days d)) with false by (destruct Hd as [-> | ->]; reflexivity).
    cbn [truthy_text andb]. unfold all_messages. cbv iota.
    change (prepare all_text) with (Some (server_statement WhereNone)).
    cbn [server_statement where_of descending capped placeholders length Nat.ltb Nat.leb].
    unfold unfiltered. repeat f_equal.
    induction (messages (db st)) as [|r l IH]; simpl; [done|]. now rewrite IH.
  - unfold api_messages. rewrite api_messages_query_cases, Hqs.
    replace (truthy_text (q_days q) && not_identical (q_days q) "0")
      with false by (destruct Hqd as [-> | ->]; reflexivity).
    cbn [truthy_text andb]. unfold all_messages. cbv iota.
    change (prepare all_text) with (Some (server_statement WhereNone)).
    cbn [server_statement where_of descending capped placeholders length Nat.ltb Nat.leb].
    unfold unfiltered. repeat f_equal.
    induction (messages (db st)) as [|r l IH]; simpl; [done|]. now rewrite IH.
  - intros Hlen. unfold unfiltered. apply Permutation_map.
    rewrite take_ge by (rewrite order_by_length; lia). apply order_by_perm.
Qed.

Lemma no_days_no_filter_witness :
  let row n := {| id := n; student_id := "2021001"; user_name := Some "张三";
                  content := "hi"; timestamp := "2024-01-01T08:00:00.000Z" |} in
  let st := {| sockets := ∅; connectedUsers := ∅;
               db := {| messages := [row 1; row 2]; online_users := [] |} |} in
  api_messages st {| q_days := Some "0"; q_startDate := None; q_endDate := Some "x" |}
    0 false = json_ok (map formatMessage [row 1; row 2])
  /\ on_getMessages st "c1"
       {| days := Some (JNumber 0); startDate := None; endDate := None |} 0 false
     = (st, [socket_emit "c1" (messageHistory (map formatMessage [row 1; row 2]))]).
Proof.
  intros row st.
  destruct (no_days_no_filter st "c1"
              {| days := Some (JNumber 0); startDate := None; endDate := None |}
              {| q_days := Some "0"; q_startDate := None; q_endDate := Some "x" |} 0
              (or_intror eq_refl) eq_refl (or_intror eq_refl) eq_refl)
    as (Hs & Hh & _).
  split; [exact Hh | exact Hs].
Defined.



(** ** Sending *)

Lemma received_io_emit conns c e :
  received conns c [io_emit e] = if decide (c ∈ conns) then [e] else [].
Proof. unfold received. simpl. now destruct (decide (c ∈ conns)). Qed.

Lemma received_socket_emit conns c s e :
  received conns c [socket_emit s e] = if decide (c = s) then [e] else [].
Proof. unfold received. simpl. now destruct (decide (c = s)). Qed.

Lemma insert_message_inv db sid uname body ts io_err db' n :
  insert_message db sid uname body ts io_err = Some (db', n) ->
  exists s c,
    sid = Some s /\ body = Some c /\ io_err = false /\ n = next_rowid (messages db)
    /\ db' = {| messages := (messages db ++
                  [{| id := n; student_id := s; user_name := uname;
                      content := c; timestamp := ts |}])%list;
                online_users := online_users db |}.
Proof.
  unfold insert_message. destruct io_err; [discriminate|].
  destruct sid as [s|]; [|discriminate]. destruct body as [c|]; [|discriminate].
  intros [= <- <-]. now exists s, c.
Qed.

(** C1. A [sendMessage] whose insert succeeds makes every connected
    socket, the sender among them, receive exactly one [newMessage]; it
    carries the id the store gave the new row, the timestamp taken when
    the event was handled, the content and the user of the payload. When
    the insert fails the sender receives one [error], no other socket
    receives anything, and the store is unchanged. *)
Theorem sendMessage_delivery (st : state) (sock : socket_id) (content : option string)
    (user : user_info) (now : Z) (io_err : bool) :
  sock ∈ sockets st ->
  let data := {| content_of := content; user_of := Some user |} in
  match insert_message (db st) (studentId user) (name user) content
          (toISOString now) io_err with
  | Some (db', lastID) =>
      let message := {| m_id := lastID; m_content := content;
                        m_timestamp := toISOString now; m_user := user |} in
      exists st' out row,
        on_sendMessage st sock data now io_err = Returned st' out
        /\ sockets st' = sockets st /\ db st' = db'
        /\ messages db' = (messages (db st) ++ [row])%list
        /\ id row = lastID /\ formatMessage row = message
        /\ received (sockets st') sock out = [newMessage message]
        /\ (forall c, c ∈ sockets st' -> received (sockets st') c out = [newMessage message])
        /\ (forall c, c ∉ sockets st' -> received (sockets st') c out = [])
  | None =>
      exists out,
        on_sendMessage st sock data now io_err = Returned st out
        /\ received (sockets st) sock out = [error "消息发送失败"]
        /\ (forall c, c <> sock -> received (sockets st) c out = [])
  end.
Proof.
  intros Hsock data. unfold on_sendMessage. subst data. cbn [user_of content_of].
  destruct (insert_message _ _ _ _ _ _) as [[db' lastID]|] eqn:Hins.
  - destruct (insert_message_inv _ _ _ _ _ _ _ _ Hins)
      as (s & c & Hs & Hc & _ & Hn & Hdb).
    destruct user as [sid nm]. cbn [studentId name] in *. subst sid content.
    eexists _, _, _. split; [reflexivity|]. cbn [sockets db].
    split; [done|]. split; [done|]. split; [rewrite Hdb; reflexivity|].
    split; [done|]. split; [reflexivity|].
    split; [|split]; intros; rewrite received_io_emit; now case_decide.
  - eexists. split; [reflexivity|]. split; [|intros c Hc];
      rewrite received_socket_emit; now case_decide.
Qed.

Lemma sendMessage_delivery_witness :
  "c1" ∈ sockets (on_connection initial "c1")
  /\ exists st' out,
       on_sendMessage (on_connection initial "c1") "c1"
         {| content_of := Some "hi";
            user_of := Some {| studentId := Some "2021001"; name := Some "张三" |} |}
         0 false = Returned st' out
       /\ received (sockets st') "c1" out
          = [newMessage {| m_id := 1; m_content := Some "hi";
                           m_timestamp := "1970-01-01T00:00:00.000Z";
                           m_user := {| studentId := Some "2021001";
                                        name := Some "张三" |} |}].
Proof.
  assert (H : "c1" ∈ sockets (on_connection initial "c1"))
    by (apply elem_of_union_l, elem_of_singleton; reflexivity).
  split; [exact H|].
  destruct (sendMessage_delivery (on_connection initial "c1") "c1" (Some "hi")
              {| studentId := Some "2021001"; name := Some "张三" |} 0 false H)
    as (st' & out & row & Hrun & _ & _ & _ & _ & _ & Hrecv & _).
  exists st', out. split; [exact Hrun | exact Hrecv].
Defined.

(** C5 fails on the code. A [sendMessage] whose payload has no [user]
    is not reported to its sender: the handler reads [user.studentId]
    with nothing before it, which throws a [TypeError] that nothing
    catches; no event is emitted and the process ends, so that the
    events that follow are not handled. The sibling case is reported as
    the claim says: for a payload with [user] and without [content] the
    store refuses the row ([content] is [NOT NULL]), the sender alone
    receives [error] and the state is unchanged. *)
Theorem missing_user_ends_process (st : state) (sock : socket_id)
    (content : option string) (user : user_info) (now : Z) (io_err overtaken : bool)
    (rest : list input) :
  let no_user := {| content_of := content; user_of := None |} in
  let no_content := {| content_of := None; user_of := Some user |} in
  let i := {| req := SendMessage sock no_user; now_of := now; io_err_of := io_err;
              overtaken_of := overtaken |} in
  on_sendMessage st sock no_user now io_err = Uncaught "TypeError"
  /\ step st i = Uncaught "TypeError"
  /\ run st (i :: rest) = st
  /\ exists out,
       on_sendMessage st sock no_content now io_err = Returned st out
       /\ received (sockets st) sock out = [error "消息发送失败"]
       /\ (forall c, c <> sock -> received (sockets st) c out = []).
Proof.
  intros no_user no_content i.
  split; [reflexivity|]. split; [reflexivity|]. split; [reflexivity|].
  unfold on_sendMessage, no_content. cbn [user_of content_of].
  replace (insert_message (db st) (studentId user) (name user) None
             (toISOString now) io_err) with (@None (database * Z))
    by (unfold insert_message; destruct io_err, (studentId user); reflexivity).
  eexists. split; [reflexivity|].
  split; [|intros c Hne]; rewrite received_socket_emit; now case_decide.
Qed.

(** ** Presence *)

Lemma filter_all {A} (f : A -> bool) l :
  (forall x, In x l -> f x = true) -> List.filter f l = l.
Proof.
  induction l as [|x l IH]; simpl; intros H; [done|].
  assert (Hx : f x = true) by (apply H; now left).
  rewrite Hx. f_equal. apply IH. intros y Hy. apply H. now right.
Qed.

Lemma sendMessage_keeps_presence st s d now e st' out :
  on_sendMessage st s d now e = Returned st' out ->
  sockets st' = sockets st /\ connectedUsers st' = connectedUsers st
  /\ online_users (db st') = online_users (db st).
Proof.
  unfold on_sendMessage. destruct (user_of d) as [u|]; [|discriminate].
  destruct (insert_message _ _ _ _ _ _) as [[db' n]|] eqn:Hins.
  - intros [= <- <-]. cbn [sockets connectedUsers db].
    apply insert_message_inv in Hins as (? & ? & _ & _ & _ & _ & ->). done.
  - now intros [= <- <-].
Qed.

Lemma getMessages_keeps_state st s d now e : fst (on_getMessages st s d now e) = st.
Proof.
  unfold on_getMessages. destruct (getMessages_query d).
  now destruct (all_messages _ _ _ _ _).
Qed.

Lemma presence_length st : length (presence st) = length (online_users (db st)).
Proof. unfold presence, userList. now rewrite length_map, order_by_length. Qed.

Lemma filter_split_length {A} (f : A -> bool) l :
  (length (List.filter f l) + length (List.filter (fun x => negb (f x)) l)
   = length l)%nat.
Proof.
  induction l as [|x l IH]; simpl; [done|]. destruct (f x); simpl; lia.
Qed.

Lemma filter_some_out {A} (f : A -> bool) l :
  existsb f l = true ->
  (length (List.filter (fun x => negb (f x)) l) < length l)%nat.
Proof.
  intros H. pose proof (filter_split_length f l) as Hlen.
  apply existsb_exists in H as (x & Hx & Hfx).
  assert (In x (List.filter f l)) as Hin by (apply List.filter_In; done).
  destruct (List.filter f l); [destruct Hin|simpl in Hlen; lia].
Qed.

(** What one event does to [online_users]. *)
Lemma step_online st i st' out :
  step st i = Returned st' out ->
  online_users (db st') =
    match req i with
    | Join s u =>
        (List.filter (fun r => negb (same_key (studentId u) r)) (online_users (db st))
         ++ [{| ou_student_id := studentId u; ou_user_name := name u;
                ou_socket_id := s;
                ou_joined_at := CURRENT_TIMESTAMP (now_of i) |}])%list
    | Disconnect s =>
        match connectedUsers st !! s with
        | Some _ =>
            List.filter (fun r => negb (ou_socket_id r =? s)%string)
              (online_users (db st))
        | None => online_users (db st)
        end
    | _ => online_users (db st)
    end.
Proof.
  unfold step. destruct i as [rq now e o]. cbn [req now_of io_err_of overtaken_of].
  destruct rq as [s|s u|s d|s d|s|s].
  - now intros [= <- _].
  - unfold on_join. now intros [= <- _].
  - intros Hsend. now destruct (sendMessage_keeps_presence _ _ _ _ _ _ _ Hsend) as (_ & _ & ->).
  - pose proof (getMessages_keeps_state st s d now e) as Hsame.
    destruct (on_getMessages st s d now e) as [st0 out0]. cbn [fst] in Hsame.
    intros [= <- _]. now subst st0.
  - unfold on_disconnect. cbn [connectedUsers db].
    destruct (connectedUsers st !! s); now intros [= <- _].
  - discriminate.
Qed.

Lemma thrown_not_counted st i exn :
  step st i = Uncaught exn -> joins [i] = 0%nat /\ leaves [i] = 0%nat.
Proof.
  unfold step. destruct i as [rq now e o]. cbn [req now_of io_err_of overtaken_of].
  destruct rq as [s|s u|s d|s d|s|s]; intros H; try (split; reflexivity);
    exfalso; revert H.
  - now destruct (on_join st s u now e o).
  - now destruct (on_disconnect st s e o).
Qed.

Lemma joins_cons i tr : joins (i :: tr) = (joins [i] + joins tr)%nat.
Proof. simpl. lia. Qed.

Lemma leaves_cons i tr : leaves (i :: tr) = (leaves [i] + leaves tr)%nat.
Proof. simpl. lia. Qed.

(** An event that counts for one changes the number of rows by what it
    adds to N - M; an event that does not, does not. *)
Lemma counted_step st i st' out :
  step st i = Returned st' out ->
  if counts_one st (req i)
  then (length (online_users (db st')) + leaves [i]
        = length (online_users (db st)) + joins [i])%nat
  else (length (online_users (db st')) + leaves [i]
        <> length (online_users (db st)) + joins [i])%nat.
Proof.
  intros Hstep. rewrite (step_online _ _ _ _ Hstep). unfold counts_one.
  cbn [joins leaves]. destruct (req i) as [s|s u|s d|s d|s|s]; try lia.
  - rewrite length_app. cbn [length]. unfold has_entry.
    destruct (existsb _ _) eqn:Hk; cbn [negb].
    + pose proof (filter_some_out _ _ Hk). lia.
    + rewrite filter_all; [lia|]. intros r Hr. apply negb_true_iff.
      destruct (same_key (studentId u) r) eqn:Hr'; [|done].
      assert (existsb (same_key (studentId u)) (online_users (db st)) = true)
        by (apply existsb_exists; eauto).
      congruence.
  - pose proof (filter_split_length (fun r => (ou_socket_id r =? s)%string)
                  (online_users (db st))) as Hlen.
    fold (rows_on s (online_users (db st))) in Hlen.
    destruct (connectedUsers st !! s) as [cu|] eqn:Hcu.
    + rewrite bool_decide_eq_true_2 by eauto. cbn [andb].
      destruct (Nat.eqb_spec (length (rows_on s (online_users (db st)))) 1); lia.
    + rewrite bool_decide_eq_false_2 by (intros [? ?]; discriminate). cbn [andb]. lia.
Qed.

Lemma orderly_count tr : forall st,
  orderly st tr = true ->
  (length (online_users (db (run st tr))) + leaves tr
   = length (online_users (db st)) + joins tr)%nat.
Proof.
  induction tr as [|i tr IH]; intros st Hord; [simpl; lia|].
  rewrite joins_cons, leaves_cons. cbn [orderly run] in *.
  destruct (step st i) as [st' out|exn] eqn:Hstep.
  - apply andb_prop in Hord as [Hi Hord]. specialize (IH st' Hord).
    pose proof (counted_step _ _ _ _ Hstep) as Hone. rewrite Hi in Hone. lia.
  - apply Nat.eqb_eq in Hord. destruct (thrown_not_counted _ _ _ Hstep). lia.
Qed.

Lemma first_join_or_leave tr :
  (joins tr + leaves tr <> 0)%nat ->
  exists k, (joins (take k tr) + leaves (take k tr) = 1)%nat.
Proof.
  induction tr as [|i tr IH]; [done|].
  rewrite joins_cons, leaves_cons. intros H.
  destruct (Nat.eq_dec (joins [i] + leaves [i])%nat 0%nat) as [H0|H1].
  - destruct IH as [k Hk]; [lia|]. exists (S k).
    change (take (S k) (i :: tr)) with (i :: take k tr).
    rewrite joins_cons, leaves_cons. lia.
  - exists 1%nat. change (take 1 (i :: tr)) with [i].
    cbn [joins leaves] in *. destruct (req i); lia.
Qed.

(** The conditions of [orderly] exclude no more than they must: a run
    that breaks one of them has a beginning after which the list does
    not have N - M entries. *)
Lemma disorderly_run_miscounts tr : forall st,
  orderly st tr = false ->
  exists k,
    (length (online_users (db (run st (take k tr)))) + leaves (take k tr)
     <> length (online_users (db st)) + joins (take k tr))%nat.
Proof.
  induction tr as [|i tr IH]; intros st Hord; [discriminate|].
  cbn [orderly] in Hord. destruct (step st i) as [st' out|exn] eqn:Hstep.
  - pose proof (counted_step _ _ _ _ Hstep) as Hone.
    destruct (counts_one st (req i)).
    + destruct (IH st' Hord) as [k Hk]. exists (S k).
      change (take (S k) (i :: tr)) with (i :: take k tr). cbn [run].
      rewrite Hstep, joins_cons, leaves_cons. lia.
    + exists 1%nat. change (take 1 (i :: tr)) with [i]. cbn [run].
      now rewrite Hstep.
  - apply Nat.eqb_neq in Hord. destruct (first_join_or_leave tr Hord) as [k Hk].
    exists (S k). change (take (S k) (i :: tr)) with (i :: take k tr). cbn [run].
    rewrite Hstep, joins_cons, leaves_cons.
    destruct (thrown_not_counted _ _ _ Hstep). lia.
Qed.

Lemma joined_since_later i tr s u : joined_since tr s u -> joined_since (i :: tr) s u.
Proof.
  intros (before & after & Heq & Hl). exists (req i :: before), after.
  split; [|done]. simpl. now rewrite Heq.
Qed.

Lemma no_leaves_not_left tr s : leaves tr = 0%nat -> ~ left_in tr s.
Proof.
  unfold left_in. induction tr as [|i tr IH]; [now intros _ []|].
  rewrite leaves_cons. cbn [leaves map]. intros H [Hi|Hin].
  - rewrite Hi in H. lia.
  - apply IH; [lia|done].
Qed.

(** Where the rows at the end of an orderly run come from: a row of
    the start whose connection has not left, or a join of a connection
    that has not left since. *)
Lemma orderly_rows tr : forall st,
  orderly st tr = true ->
  forall r, In r (online_users (db (run st tr))) ->
    (In r (online_users (db st)) /\ ~ left_in tr (ou_socket_id r))
    \/ exists u, joined_since tr (ou_socket_id r) u
         /\ ou_student_id r = studentId u /\ ou_user_name r = name u.
Proof.
  induction tr as [|i tr IH]; intros st Hord r Hr.
  { left. split; [exact Hr|intros []]. }
  cbn [orderly run] in *. destruct (step st i) as [st' out|exn] eqn:Hstep.
  - apply andb_prop in Hord as [Hi Hord].
    destruct (IH st' Hord r Hr) as [[Hr' Hl]|(u & Hu & Hf)].
    2:{ right. exists u. split; [now apply joined_since_later|done]. }
    rewrite (step_online _ _ _ _ Hstep) in Hr'. unfold left_in. cbn [map].
    destruct (req i) as [s|s u|s d|s d|s|s] eqn:Hreq;
      try (left; split; [exact Hr'|]; intros [Heq|Hin]; [discriminate|done]).
    + apply in_app_or in Hr' as [Hr'|[<-|[]]].
      * apply List.filter_In in Hr' as [Hr' _].
        left. split; [exact Hr'|]. intros [Heq|Hin]; [discriminate|done].
      * right. exists u. split; [|done]. exists [], (map req tr).
        cbn [ou_socket_id map app]. now rewrite Hreq.
    + unfold counts_one in Hi. apply andb_prop in Hi as [Hcu _].
      apply bool_decide_eq_true in Hcu as [cu Hcu]. rewrite Hcu in Hr'.
      apply List.filter_In in Hr' as [Hr' Hne].
      apply negb_true_iff, String.eqb_neq in Hne.
      left. split; [exact Hr'|]. intros [Heq|Hin]; [congruence|done].
  - apply Nat.eqb_eq in Hord. left. split; [exact Hr|].
    apply no_leaves_not_left. rewrite leaves_cons.
    destruct (thrown_not_counted _ _ _ Hstep). lia.
Qed.

Lemma never_joined_run sock tr : forall st,
  connectedUsers st !! sock = None -> ~ joined_in tr sock ->
  connectedUsers (run st tr) !! sock = None.
Proof.
  induction tr as [|i tr IH]; intros st Hst Hnj; [done|].
  assert (Hnj' : ~ joined_in tr sock).
  { intros [u Hu]. apply Hnj. exists u. now right. }
  simpl. unfold step. destruct i as [rq now e o]. cbn [req now_of io_err_of overtaken_of].
  destruct rq as [s|s u|s d|s d|s|s].
  - now apply IH.
  - destruct (on_join st s u now e o) as [st' out] eqn:Hj. apply IH; [|done].
    unfold on_join in Hj. injection Hj as <- _. cbn [connectedUsers].
    rewrite lookup_insert_ne; [done|]. intros ->. apply Hnj. exists u. now left.
  - destruct (on_sendMessage st s d now e) as [st' out|] eqn:Hsend; [|done].
    apply IH; [|done].
    destruct (sendMessage_keeps_presence _ _ _ _ _ _ _ Hsend) as (_ & -> & _). done.
  - pose proof (getMessages_keeps_state st s d now e) as Hsame.
    destruct (on_getMessages st s d now e) as [st' out]. cbn [fst] in Hsame. subst st'.
    now apply IH.
  - destruct (on_disconnect st s e o) as [st' out] eqn:Hd. apply IH; [|done].
    unfold on_disconnect in Hd. cbn [connectedUsers] in Hd.
    destruct (connectedUsers st !! s); injection Hd as <- _; cbn [connectedUsers];
      [|done].
    now apply lookup_delete_None; right.
  - done.
Qed.

(** The rowids stay ascending along a run. *)
Lemma next_rowid_above rows : Forall (fun r => id r < next_rowid rows) rows.
Proof.
  unfold next_rowid. induction rows as [|r rows IH]; simpl; constructor; [lia|].
  eapply List.Forall_impl; [|exact IH]. simpl. intros; lia.
Qed.

Lemma ids_ascending_snoc rows r :
  ids_ascending rows -> id r = next_rowid rows -> ids_ascending (rows ++ [r])%list.
Proof.
  intros Hasc Hid. pose proof (next_rowid_above rows) as Hall. rewrite <- Hid in Hall.
  unfold ids_ascending in *. clear Hid.
  induction Hasc as [|x l Hl IH Hx]; simpl.
  - repeat constructor.
  - apply Forall_cons in Hall as [Hxr Hall]. constructor; [now apply IH|].
    apply Forall_app. split; [done|]. now repeat constructor.
Qed.

Lemma sendMessage_ids_ascending st s d now e st' out :
  ids_ascending (messages (db st)) ->
  on_sendMessage st s d now e = Returned st' out ->
  ids_ascending (messages (db st')).
Proof.
  intros Hasc. unfold on_sendMessage. destruct (user_of d) as [u|]; [|discriminate].
  destruct (insert_message _ _ _ _ _ _) as [[db' n]|] eqn:Hins.
  - intros [= <- _]. cbn [db].
    apply insert_message_inv in Hins as (? & ? & _ & _ & _ & Hn & ->). cbn [messages].
    now apply ids_ascending_snoc.
  - now intros [= <- _].
Qed.

Lemma run_ids_ascending tr : forall st,
  ids_ascending (messages (db st)) -> ids_ascending (messages (db (run st tr))).
Proof.
  induction tr as [|i tr IH]; intros st Hasc; [done|].
  simpl. unfold step. destruct i as [rq now e o]. cbn [req now_of io_err_of overtaken_of].
  destruct rq as [s|s u|s d|s d|s|s].
  - now apply IH.
  - apply IH. now unfold on_join.
  - destruct (on_sendMessage st s d now e) as [st' out|] eqn:Hsend; [|done].
    apply IH. eapply sendMessage_ids_ascending; eauto.
  - pose proof (getMessages_keeps_state st s d now e) as Hsame.
    destruct (on_getMessages st s d now e) as [st' out]. cbn [fst] in Hsame. subst st'.
    now apply IH.
  - destruct (on_disconnect st s e o) as [st' out] eqn:Hd. apply IH.
    unfold on_disconnect in Hd. cbn [connectedUsers db] in Hd.
    destruct (connectedUsers st !! s); injection Hd as <- _; done.
  - done.
Qed.

Lemma filter_perm {A} (f : A -> bool) l l' :
  Permutation l l' -> Permutation (List.filter f l) (List.filter f l').
Proof.
  induction 1 as [|x l l' _ IH|x y l|l l' l'' _ IH1 _ IH2]; simpl.
  - done.
  - destruct (f x); [now constructor|done].
  - destruct (f x), (f y); try done. apply perm_swap.
  - now rewrite IH1.
Qed.

Lemma filter_map_comm {A B} (f : B -> bool) (g : A -> B) l :
  List.filter f (map g l) = map g (List.filter (fun x => f (g x)) l).
Proof.
  induction l as [|x l IH]; simpl; [done|]. destruct (f (g x)); simpl; now rewrite IH.
Qed.

Lemma filter_filter_none {A} (f : A -> bool) l :
  List.filter f (List.filter (fun x => negb (f x)) l) = [].
Proof.
  induction l as [|x l IH]; simpl; [done|].
  destruct (f x) eqn:E; simpl; [done|]. now rewrite E.
Qed.

Lemma entries_of_presence k st :
  Permutation (entries_of k (presence st))
    (userList (rows_of k (online_users (db st)))).
Proof.
  unfold entries_of, presence, userList, rows_of. rewrite filter_map_comm.
  apply Permutation_map. cbn [ue_studentId].
  erewrite (List.filter_ext _ (same_key (Some k))).
  - apply filter_perm, order_by_perm.
  - intros r. unfold same_key. destruct (ou_student_id r) as [k'|]; [|done].
    destruct (String.eqb_spec k k') as [->|Hne].
    + now apply bool_decide_eq_true.
    + apply bool_decide_eq_false. congruence.
Qed.

Lemma join_rows_of st sock k nm now e o :
  rows_of k (online_users (db (fst (on_join st sock
                {| studentId := Some k; name := nm |} now e o))))
  = [{| ou_student_id := Some k; ou_user_name := nm; ou_socket_id := sock;
        ou_joined_at := CURRENT_TIMESTAMP now |}].
Proof.
  unfold on_join, rows_of. cbn [fst db studentId name].
  unfold insert_or_replace_online. cbn [online_users].
  rewrite List.filter_app, filter_filter_none. simpl.
  now rewrite String.eqb_refl.
Qed.

(** C3. After a user has joined on one connection and then, whatever
    happened in between, on another, the table and the list hold exactly
    one entry for that user: the one of the later join. *)
Theorem rejoin_replaces (st : state) (c1 c2 : socket_id) (k : string)
    (n1 n2 : option string) (t1 t2 : Z) (e1 e2 o1 o2 : bool) (between : list input) :
  let st1 := fst (on_join st c1 {| studentId := Some k; name := n1 |} t1 e1 o1) in
  let st2 := fst (on_join (run st1 between) c2
                    {| studentId := Some k; name := n2 |} t2 e2 o2) in
  rows_of k (online_users (db st2))
  = [{| ou_student_id := Some k; ou_user_name := n2; ou_socket_id := c2;
        ou_joined_at := CURRENT_TIMESTAMP t2 |}]
  /\ entries_of k (presence st2)
     = [{| ue_studentId := Some k; ue_name := n2; online := true |}].
Proof.
  intros st1 st2. subst st2. split; [apply join_rows_of|].
  pose proof (entries_of_presence k
    (fst (on_join (run st1 between) c2 {| studentId := Some k; name := n2 |} t2 e2 o2)))
    as Hp.
  rewrite join_rows_of in Hp. symmetry in Hp.
  now apply Permutation_length_1_inv in Hp.
Qed.

(** C4 as stated fails: two joins of the same user and no leave give a
    list of one entry, not two. *)
Lemma same_user_counted_once :
  let u := {| studentId := Some "2021001"; name := Some "张三" |} in
  let ev r := {| req := r; now_of := 1704096000000; io_err_of := false;
                 overtaken_of := false |} in
  let tr := [ev (Connection "c1"); ev (Connection "c2");
             ev (Join "c1" u); ev (Join "c2" u)] in
  (leaves tr <= joins tr)%nat
  /\ length (presence (run initial tr)) <> (joins tr - leaves tr)%nat.
Proof. vm_compute. split; [lia|discriminate]. Qed.

(** The other conditions of the amended claim are needed as well: the
    leave of a connection that has not joined, the leave of a
    connection that has two entries, and a join that comes after a
    handler has thrown each give a list that does not have N - M
    entries. ([disorderly_run_miscounts] says so of every run that
    breaks a condition.) *)
Lemma leave_without_join_not_counted :
  let u := {| studentId := Some "2021001"; name := Some "张三" |} in
  let ev r := {| req := r; now_of := 1704096000000; io_err_of := false;
                 overtaken_of := false |} in
  let tr := [ev (Connection "c1"); ev (Connection "c2");
             ev (Join "c1" u); ev (Disconnect "c2")] in
  (leaves tr <= joins tr)%nat
  /\ length (presence (run initial tr)) <> (joins tr - leaves tr)%nat.
Proof. vm_compute. split; [lia|discriminate]. Qed.

Lemma leave_with_two_entries_removes_both :
  let ev r := {| req := r; now_of := 1704096000000; io_err_of := false;
                 overtaken_of := false |} in
  let tr := [ev (Connection "c1");
             ev (Join "c1" {| studentId := Some "2021001"; name := Some "张三" |});
             ev (Join "c1" {| studentId := Some "2021002"; name := Some "李四" |});
             ev (Disconnect "c1")] in
  (leaves tr <= joins tr)%nat
  /\ length (presence (run initial tr)) <> (joins tr - leaves tr)%nat.
Proof. vm_compute. split; [lia|discriminate]. Qed.

Lemma join_after_throw_not_counted :
  let u := {| studentId := Some "2021001"; name := Some "张三" |} in
  let ev r := {| req := r; now_of := 1704096000000; io_err_of := false;
                 overtaken_of := false |} in
  let tr := [ev (Connection "c1");
             ev (SendMessage "c1" {| content_of := Some "hi"; user_of := None |});
             ev (Join "c1" u)] in
  (leaves tr <= joins tr)%nat
  /\ length (presence (run initial tr)) <> (joins tr - leaves tr)%nat.
Proof. vm_compute. split; [lia|discriminate]. Qed.

(** C4, amended. In a run in which every join names a user who has no
    entry in the list at that moment, every leave is of a connection
    that has joined, has not left since and has exactly one entry at
    that moment, and no join or leave comes after a handler has thrown,
    the list has exactly N - M entries after N joins and M leaves, and
    every entry is that of a join of a connection that has not left
    since. A user or a connection may come back after having left. *)
Theorem orderly_presence_count (tr : list input) :
  orderly initial tr = true ->
  let st := run initial tr in
  (leaves tr <= joins tr)%nat
  /\ length (presence st) = (joins tr - leaves tr)%nat
  /\ (forall r, In r (online_users (db st)) ->
        exists u, joined_since tr (ou_socket_id r) u
          /\ ou_student_id r = studentId u /\ ou_user_name r = name u)
  /\ (forall e, In e (presence st) ->
        exists r, In r (online_users (db st))
          /\ ue_studentId e = ou_student_id r /\ ue_name e = ou_user_name r).
Proof.
  intros Hord st. pose proof (orderly_count tr initial Hord) as Hlen.
  fold st in Hlen. cbn [initial db online_users length] in Hlen.
  split; [lia|]. split; [rewrite presence_length; lia|]. split.
  - intros r Hr. destruct (orderly_rows tr initial Hord r Hr) as [([] & _)|Hjoin].
    exact Hjoin.
  - intros e He. unfold presence, userList in He. apply in_map_iff in He as (r & <- & Hr).
    exists r. split; [|done].
    eapply Permutation_in; [apply order_by_perm|exact Hr].
Qed.

Lemma orderly_presence_count_witness :
  let ev r := {| req := r; now_of := 1704096000000; io_err_of := false;
                 overtaken_of := false |} in
  let tr := [ev (Connection "c1"); ev (Connection "c2");
             ev (Join "c1" {| studentId := Some "2021001"; name := Some "张三" |});
             ev (Join "c2" {| studentId := Some "2021002"; name := Some "李四" |});
             ev (Disconnect "c1"); ev (Connection "c3");
             ev (Join "c3" {| studentId := Some "2021001"; name := Some "张三" |})] in
  orderly initial tr = true /\ length (presence (run initial tr)) = 2%nat.
Proof.
  intros ev tr.
  assert (H : orderly initial tr = true) by (vm_compute; reflexivity).
  split; [exact H|]. exact (proj1 (proj2 (orderly_presence_count tr H))).
Defined.

(** C8. A connection that disconnects without having joined causes no
    event at all, so neither [userLeft] nor [userListUpdate], and leaves
    the database, hence the presence list, as it was. *)
Theorem disconnect_without_join_is_silent (tr : list input) (sock : socket_id)
    (io_err overtaken : bool) :
  ~ joined_in tr sock ->
  let st := run initial tr in
  snd (on_disconnect st sock io_err overtaken) = []
  /\ db (fst (on_disconnect st sock io_err overtaken)) = db st
  /\ connectedUsers (fst (on_disconnect st sock io_err overtaken)) = connectedUsers st
  /\ presence (fst (on_disconnect st sock io_err overtaken)) = presence st.
Proof.
  intros Hnj st.
  assert (Hcu : connectedUsers st !! sock = None)
    by (apply never_joined_run; [apply lookup_empty|done]).
  unfold on_disconnect, presence. cbn [connectedUsers]. now rewrite Hcu.
Qed.

Lemma disconnect_without_join_is_silent_witness :
  let ev r := {| req := r; now_of := 1704096000000; io_err_of := false;
                 overtaken_of := false |} in
  let tr := [ev (Connection "c1"); ev (Connection "c2");
             ev (Join "c1" {| studentId := Some "2021001"; name := Some "张三" |})] in
  ~ joined_in tr "c2"
  /\ snd (on_disconnect (run initial tr) "c2" false false) = [].
Proof.
  intros ev tr.
  assert (H : ~ joined_in tr "c2").
  { intros [u [Hu|[Hu|[Hu|[]]]]]; discriminate Hu. }
  split; [exact H|].
  exact (proj1 (disconnect_without_join_is_silent tr "c2" false false H)).
Defined.

(** C10. When a user joined on [c1] and later on [c2], the disconnect of
    [c1] still broadcasts [userLeft] for that user to every remaining
    socket, and the list update that follows still holds the user, with
    the entry of the join on [c2]. ([sent] is the list of that update:
    the table after the [DELETE] of the handler, or before it when the
    [SELECT] has overtaken it; the user is in both.) *)
Theorem superseded_disconnect_still_announces (st : state) (c1 c2 : socket_id)
    (k : string) (n1 n2 : option string) (t1 t2 : Z) (e1 e2 o1 o2 o : bool) :
  c1 <> c2 ->
  let st1 := fst (on_join st c1 {| studentId := Some k; name := n1 |} t1 e1 o1) in
  let st2 := fst (on_join st1 c2 {| studentId := Some k; name := n2 |} t2 e2 o2) in
  let st3 := fst (on_disconnect st2 c1 false o) in
  let bye := userLeft {| studentId := Some k; name := n1 |} in
  let sent := presence (if o then st2 else st3) in
  snd (on_disconnect st2 c1 false o)
  = [socket_broadcast_emit c1 bye; io_emit (userListUpdate sent)]
  /\ In {| ue_studentId := Some k; ue_name := n2; online := true |} (presence st3)
  /\ In {| ue_studentId := Some k; ue_name := n2; online := true |} sent
  /\ (forall c, c ∈ sockets st -> c <> c1 ->
        received (sockets st3) c (snd (on_disconnect st2 c1 false o))
        = [bye; userListUpdate sent]).
Proof.
  intros Hne st1 st2 st3 bye sent.
  assert (Hcu : connectedUsers st2 !! c1
                = Some {| cu_studentId := Some k; cu_name := n1; cu_socketId := c1 |}).
  { subst st2 st1. unfold on_join. cbn [fst connectedUsers studentId name].
    rewrite lookup_insert_ne by congruence. apply lookup_insert_eq. }
  assert (Hst3 : st3 = {| sockets := sockets st2 ∖ {[c1]};
                          connectedUsers := delete c1 (connectedUsers st2);
                          db := delete_online (db st2) c1 |}).
  { subst st3. unfold on_disconnect. cbn [connectedUsers sockets db].
    now rewrite Hcu. }
  assert (Hout : snd (on_disconnect st2 c1 false o)
                 = [socket_broadcast_emit c1 bye; io_emit (userListUpdate sent)]).
  { subst sent. rewrite Hst3. unfold on_disconnect. cbn [connectedUsers sockets db].
    rewrite Hcu. cbn [snd]. now destruct o. }
  assert (Hrow : In {| ou_student_id := Some k; ou_user_name := n2; ou_socket_id := c2;
                       ou_joined_at := CURRENT_TIMESTAMP t2 |}
                   (online_users (db st2))).
  { subst st2. unfold on_join. cbn [fst db studentId name].
    unfold insert_or_replace_online. cbn [online_users].
    apply in_or_app. right. now left. }
  assert (Hlist : forall s, In {| ou_student_id := Some k; ou_user_name := n2;
                                 ou_socket_id := c2;
                                 ou_joined_at := CURRENT_TIMESTAMP t2 |}
                              (online_users (db s)) ->
                  In {| ue_studentId := Some k; ue_name := n2; online := true |}
                    (presence s)).
  { intros s Hs. unfold presence, userList.
    apply (in_map (fun user => {| ue_studentId := ou_student_id user;
                                  ue_name := ou_user_name user; online := true |})
             _ {| ou_student_id := Some k; ou_user_name := n2; ou_socket_id := c2;
                  ou_joined_at := CURRENT_TIMESTAMP t2 |}).
    eapply Permutation_in; [symmetry; apply order_by_perm|exact Hs]. }
  assert (Hafter : In {| ue_studentId := Some k; ue_name := n2; online := true |}
                     (presence st3)).
  { apply Hlist. rewrite Hst3. cbn [db delete_online online_users].
    apply List.filter_In. split; [exact Hrow|].
    cbn [ou_socket_id]. apply negb_true_iff, String.eqb_neq. congruence. }
  split; [exact Hout|]. split; [exact Hafter|]. split.
  - subst sent. destruct o; [now apply Hlist|exact Hafter].
  - intros c Hc Hcne. rewrite Hout, Hst3.
    unfold received. cbn [omap list_omap delivered sockets].
    assert (Hin : c ∈ sockets st2 ∖ {[c1]}).
    { subst st2 st1. unfold on_join. cbn [fst sockets].
      apply elem_of_difference. split; [done|]. now rewrite elem_of_singleton. }
    rewrite !decide_True by auto. reflexivity.
Qed.

Lemma superseded_disconnect_still_announces_witness :
  "c1" <> "c2"
  /\ snd (on_disconnect
            (fst (on_join
               (fst (on_join (on_connection (on_connection initial "c1") "c2") "c1"
                       {| studentId := Some "2021001"; name := Some "张三" |}
                       0 false false))
               "c2" {| studentId := Some "2021001"; name := Some "张三" |}
               1000 false false))
            "c1" false false)
     = [socket_broadcast_emit "c1"
          (userLeft {| studentId := Some "2021001"; name := Some "张三" |});
        io_emit (userListUpdate
          [{| ue_studentId := Some "2021001"; ue_name := Some "张三"; online := true |}])].
Proof.
  assert (H : "c1" <> "c2") by discriminate.
  split; [exact H|].
  rewrite (proj1 (superseded_disconnect_still_announces
                    (on_connection (on_connection initial "c1") "c2") "c1" "c2"
                    "2021001" (Some "张三") (Some "张三") 0 1000
                    false false false false false H)).
  reflexivity.
Defined.

(** What the days filter does: a message passes when its calendar date
    is not before the calendar date of the instant [n] days before the
    query; the time of day plays no part. *)
Lemma days_filter_compares_dates (n now t : Z) (r : message_row) :
  0 <= n < 5373485 ->
  valid_julian (now - n * ms_per_day) = true ->
  four_digit_year (now - n * ms_per_day) -> four_digit_year t ->
  timestamp r = toISOString t ->
  selects (WhereSince ("-" +:+ number_to_string (Some n) +:+ " days")) [] now r
  = String.leb (day_text (now - n * ms_per_day)) (day_text t).
Proof.
  intros Hn Hvalid Hc Ht Hts. unfold selects, datetime_now.
  rewrite parse_modifier_days by done.
  replace (now + - n * ms_per_day) with (now - n * ms_per_day) by lia.
  rewrite Hvalid, Hts. unfold text_le. now apply bound_le_timestamp.
Qed.

(** In particular the message sent exactly [n] days before the query
    passes. *)
Corollary days_filter_keeps_boundary (n now : Z) (r : message_row) :
  0 <= n < 5373485 ->
  valid_julian (now - n * ms_per_day) = true ->
  four_digit_year (now - n * ms_per_day) ->
  timestamp r = toISOString (now - n * ms_per_day) ->
  selects (WhereSince ("-" +:+ number_to_string (Some n) +:+ " days")) [] now r = true.
Proof.
  intros Hn Hvalid Hc Hts.
  rewrite (days_filter_compares_dates n now (now - n * ms_per_day)) by done.
  apply leb_refl.
Qed.

(** C6 fails on the code. A message sent at 2024-01-01T08:00:00.000Z is
    older than seven days at 2024-01-08T12:00:00.000Z, and a query for
    the last seven days at that instant returns it all the same, over
    the socket and over HTTP: the stored text [2024-01-01T08:...] is
    compared, as text, with the bound [2024-01-01 12:00:00]
    ([days_filter_compares_dates]). *)
Theorem lastNDays_returns_older_message :
  let sender := {| studentId := Some "2021001"; name := Some "张三" |} in
  let sent_at := 1704096000000 in
  let asked_at := 1704715200000 in
  let m := {| m_id := 1; m_content := Some "hi";
              m_timestamp := "2024-01-01T08:00:00.000Z"; m_user := sender |} in
  exists st1 out,
    on_sendMessage (on_connection initial "c1") "c1"
      {| content_of := Some "hi"; user_of := Some sender |} sent_at false
    = Returned st1 out
    /\ sent_at < asked_at - 7 * ms_per_day
    /\ datetime_now asked_at "-7 days" = Some "2024-01-01 12:00:00"
    /\ on_getMessages st1 "c1"
         {| days := Some (JNumber 7); startDate := None; endDate := None |}
         asked_at false
       = (st1, [socket_emit "c1" (messageHistory [m])])
    /\ api_messages st1 {| q_days := Some "7"; q_startDate := None; q_endDate := None |}
         asked_at false
       = json_ok [m].
Proof.
  intros sender sent_at asked_at m. eexists _, _.
  split; [reflexivity|]. split; [reflexivity|]. split; [reflexivity|].
  split; vm_compute; reflexivity.
Qed.

(** * Further properties of the server *)

(** ** The message log along a run *)

(** What one event does to the log: nothing, or, for a [sendMessage]
    whose insert succeeds, one row more at its end, made of the payload
    and of the clock. *)
Lemma step_stores st i st' out :
  step st i = Returned st' out ->
  messages (db st') = messages (db st)
  \/ exists r, messages (db st') = (messages (db st) ++ [r])%list
       /\ id r = next_rowid (messages (db st))
       /\ sent_by i r.
Proof.
  unfold step, sent_by. destruct i as [rq now e o].
  cbn [req now_of io_err_of overtaken_of].
  destruct rq as [s|s u|s d|s d|s|s].
  - intros [= <- _]. now left.
  - unfold on_join. intros [= <- _]. now left.
  - unfold on_sendMessage. destruct (user_of d) as [u|] eqn:Hu; [|discriminate].
    destruct (insert_message _ _ _ _ _ _) as [[db' n]|] eqn:Hins.
    + intros [= <- _]. cbn [db].
      apply insert_message_inv in Hins as (x & c & Hx & Hc & He & Hn & ->).
      right. eexists. cbn [messages]. split; [reflexivity|]. split; [done|].
      exists s, d, u. cbn [student_id user_name content timestamp]. done.
    + intros [= <- _]. now left.
  - pose proof (getMessages_keeps_state st s d now e) as Hsame.
    destruct (on_getMessages st s d now e) as [st0 out0]. cbn [fst] in Hsame.
    intros [= <- _]. subst st0. now left.
  - unfold on_disconnect. cbn [connectedUsers db].
    destruct (connectedUsers st !! s); intros [= <- _]; now left.
  - discriminate.
Qed.

Lemma step_messages st i st' out :
  step st i = Returned st' out ->
  messages (db st') = messages (db st)
  \/ exists r, messages (db st') = (messages (db st) ++ [r])%list
       /\ id r = next_rowid (messages (db st))
       /\ timestamp r = toISOString (now_of i).
Proof.
  intros Hstep. destruct (step_stores _ _ _ _ Hstep) as [?|(r & ? & ? & Hr)]; [now left|].
  right. exists r. split; [done|]. split; [done|].
  now destruct Hr as (s & d & u & _ & _ & _ & _ & _ & _ & Ht).
Qed.

Lemma run_log_prefix (st : state) (tr : list input) :
  messages (db st) `prefix_of` messages (db (run st tr)).
Proof.
  revert st. induction tr as [|i tr IH]; intros st; simpl; [done|].
  destruct (step st i) as [st' out|] eqn:Hstep; [|done].
  etransitivity; [|apply IH].
  destruct (step_messages _ _ _ _ Hstep) as [->|(r & -> & _)]; [done|].
  now apply prefix_app_r.
Qed.

(** X1. No handler rewrites or deletes a stored message: along any run the
    log only grows at its end. *)
Theorem messages_append_only (st : state) (tr : list input) :
  messages (db st) `prefix_of` messages (db (run st tr)).
Proof. apply run_log_prefix. Qed.

Lemma consecutive_next rows :
  map id rows = map Z.of_nat (seq 1 (length rows)) ->
  next_rowid rows = 1 + Z.of_nat (length rows).
Proof.
  unfold next_rowid. intros H. f_equal.
  assert (Hgen : forall k, map id rows = map Z.of_nat (seq (S k) (length rows)) ->
            foldr (fun r m => Z.max (id r) m) 0 rows
            = if length rows is O then 0 else Z.of_nat (k + length rows)).
  { clear H. induction rows as [|x rows IH]; intros k Hk; simpl; [done|].
    simpl in Hk. injection Hk as Hx Hk. rewrite (IH (S k) Hk), Hx.
    destruct (length rows); lia. }
  rewrite (Hgen O H). destruct (length rows); lia.
Qed.

(** X2. On a server started on an empty database the stored messages carry
    the ids 1, 2, 3, ... in the order they were stored. *)
Theorem stored_ids_consecutive (tr : list input) :
  let rows := messages (db (run initial tr)) in
  map id rows = map Z.of_nat (seq 1 (length rows)).
Proof.
  cbv zeta.
  assert (Hgen : forall st,
            map id (messages (db st)) = map Z.of_nat (seq 1 (length (messages (db st)))) ->
            map id (messages (db (run st tr)))
            = map Z.of_nat (seq 1 (length (messages (db (run st tr)))))).
  { induction tr as [|i tr IH]; intros st Hst; simpl; [done|].
    destruct (step st i) as [st' out|] eqn:Hstep; [|done].
    apply IH.
    destruct (step_messages _ _ _ _ Hstep) as [->|(r & -> & Hr & _)]; [done|].
    rewrite map_app, length_app, seq_app, map_app, <- Hst. simpl. f_equal.
    rewrite Hr, (consecutive_next _ Hst). f_equal. lia. }
  now apply Hgen.
Qed.

(** ** What each handler sends to whom *)

(** X3. When a connected socket joins, it receives the welcome and then
    the user list; every other connected socket receives [userJoined]
    and then the same list. The list sent is that of the table after
    the join, which holds the joiner, unless the [SELECT] has overtaken
    the [INSERT OR REPLACE]: then it is the list of the table before the
    join. *)
Theorem join_fanout (st : state) (sock : socket_id) (u : user_info) (now : Z)
    (overtaken : bool) :
  sock ∈ sockets st ->
  let st' := fst (on_join st sock u now false overtaken) in
  let out := snd (on_join st sock u now false overtaken) in
  let sent := presence (if overtaken then st else st') in
  received (sockets st') sock out
  = [systemMessage "welcome" "欢迎来到群聊！"; userListUpdate sent]
  /\ (forall c, c ∈ sockets st -> c <> sock ->
        received (sockets st') c out = [userJoined u; userListUpdate sent])
  /\ (forall c, c ∉ sockets st -> c <> sock -> received (sockets st') c out = [])
  /\ In {| ue_studentId := studentId u; ue_name := name u; online := true |}
        (presence st').
Proof.
  intros Hsock st' out sent. subst st' out sent. destruct u as [sid nm].
  unfold on_join, updateUserList, all_online, received.
  cbn [fst snd sockets db studentId name app omap list_omap delivered].
  assert (Hsent : forall a b : state,
            userList (order_by ou_joined_at (online_users (db (if overtaken then a else b))))
            = presence (if overtaken then a else b)) by reflexivity.
  split; [|split; [|split]].
  - rewrite decide_False by tauto. rewrite (decide_True (P := sock = sock)) by done.
    rewrite decide_True by done. now rewrite Hsent.
  - intros c Hc Hne. rewrite decide_True by done. rewrite decide_False by done.
    rewrite decide_True by done. now rewrite Hsent.
  - intros c Hc Hne. rewrite decide_False by tauto. rewrite decide_False by done.
    now rewrite decide_False by done.
  - unfold presence, userList. cbn [db].
    apply (in_map (fun user => {| ue_studentId := ou_student_id user;
                                  ue_name := ou_user_name user; online := true |})
             _ {| ou_student_id := sid; ou_user_name := nm; ou_socket_id := sock;
                  ou_joined_at := CURRENT_TIMESTAMP now |}).
    eapply Permutation_in; [symmetry; apply order_by_perm|].
    unfold insert_or_replace_online. cbn [online_users].
    apply in_or_app. right. now left.
Qed.

Lemma join_fanout_witness :
  let st := on_connection (on_connection initial "c1") "c2" in
  let u := {| studentId := Some "2021001"; name := Some "张三" |} in
  "c1" ∈ sockets st
  /\ received (sockets (fst (on_join st "c1" u 0 false false))) "c2"
       (snd (on_join st "c1" u 0 false false))
     = [userJoined u;
        userListUpdate [{| ue_studentId := Some "2021001"; ue_name := Some "张三";
                           online := true |}]]
  /\ received (sockets (fst (on_join st "c1" u 0 false true))) "c2"
       (snd (on_join st "c1" u 0 false true))
     = [userJoined u; userListUpdate []].
Proof.
  intros st u.
  assert (H : "c1" ∈ sockets st)
    by (apply elem_of_union_r, elem_of_union_l, elem_of_singleton; reflexivity).
  assert (H2 : "c2" ∈ sockets st)
    by (apply elem_of_union_l, elem_of_singleton; reflexivity).
  assert (Hne : "c2" <> "c1") by discriminate.
  split; [exact H|]. split.
  - now rewrite (proj1 (proj2 (join_fanout st "c1" u 0 false H)) "c2" H2 Hne).
  - now rewrite (proj1 (proj2 (join_fanout st "c1" u 0 true H)) "c2" H2 Hne).
Defined.

(** X4. When a socket that has joined disconnects, its entry in
    [connectedUsers] and every row it put in [online_users] are gone,
    the rows of the other sockets stay, it receives nothing itself, and
    every other connected socket is told that its user left. *)
Theorem disconnect_clears_connection (st : state) (sock : socket_id)
    (user : connected_user) (io_err overtaken : bool) :
  connectedUsers st !! sock = Some user ->
  let st' := fst (on_disconnect st sock io_err overtaken) in
  let out := snd (on_disconnect st sock io_err overtaken) in
  connectedUsers st' !! sock = None
  /\ (sock ∉ sockets st')
  /\ (forall r, In r (online_users (db st')) <->
        In r (online_users (db st)) /\ ou_socket_id r <> sock)
  /\ received (sockets st') sock out = []
  /\ (forall c, c ∈ sockets st -> c <> sock ->
        exists rest, received (sockets st') c out
          = userLeft {| studentId := cu_studentId user; name := cu_name user |} :: rest).
Proof.
  intros Hcu st' out. subst st' out. unfold on_disconnect.
  cbn [connectedUsers sockets db]. rewrite Hcu. cbn [fst snd connectedUsers sockets db].
  split; [apply lookup_delete_eq|]. split.
  { rewrite elem_of_difference, elem_of_singleton. tauto. }
  split.
  { intros r. unfold delete_online. cbn [online_users].
    rewrite List.filter_In, negb_true_iff, String.eqb_neq. tauto. }
  assert (Hnot : sock ∉ sockets st ∖ {[sock]})
    by (rewrite elem_of_difference, elem_of_singleton; tauto).
  split.
  - unfold received, updateUserList. cbn [omap list_omap delivered].
    rewrite decide_False by tauto.
    destruct (all_online _ _); cbn [omap list_omap delivered]; [|done].
    now rewrite decide_False by done.
  - intros c Hc Hne. unfold received. cbn [omap list_omap delivered].
    rewrite decide_True; [eauto|].
    split; [|done]. rewrite elem_of_difference, elem_of_singleton. tauto.
Qed.

Lemma disconnect_clears_connection_witness :
  let st := fst (on_join (on_connection (on_connection initial "c1") "c2") "c1"
                   {| studentId := Some "2021001"; name := Some "张三" |}
                   0 false false) in
  let user := {| cu_studentId := Some "2021001"; cu_name := Some "张三";
                 cu_socketId := "c1" |} in
  connectedUsers st !! "c1" = Some user
  /\ online_users (db (fst (on_disconnect st "c1" false false))) = []
  /\ connectedUsers (fst (on_disconnect st "c1" false false)) !! "c1" = None.
Proof.
  intros st user.
  assert (H : connectedUsers st !! "c1" = Some user) by apply lookup_insert_eq.
  split; [exact H|]. split; [reflexivity|].
  exact (proj1 (disconnect_clears_connection st "c1" user false false H)).
Defined.

(** ** Presence along any run *)

Lemma rows_of_filter_le k (f : online_row -> bool) rows :
  (length (rows_of k (List.filter f rows)) <= length (rows_of k rows))%nat.
Proof.
  unfold rows_of. induction rows as [|r rows IH]; [done|].
  cbn [List.filter]. destruct (f r); cbn [List.filter];
    destruct (same_key (Some k) r); cbn [length]; lia.
Qed.

Lemma rows_of_single k r :
  length (rows_of k [r])
  = match ou_student_id r with
    | Some b => if (k =? b)%string then 1%nat else 0%nat
    | None => 0%nat
    end.
Proof.
  unfold rows_of, same_key. simpl.
  destruct (ou_student_id r) as [b|]; [|done]. now destruct (k =? b)%string.
Qed.

Lemma rows_of_app k a b : rows_of k (a ++ b) = (rows_of k a ++ rows_of k b)%list.
Proof. apply List.filter_app. Qed.

(** X5. Whatever the clients do, the presence table never holds two rows
    for one user, and every row belongs to a connection that is still
    in [connectedUsers], that is, has joined and not disconnected. *)
Theorem presence_rows_wellformed (tr : list input) :
  let st := run initial tr in
  (forall k, (length (rows_of k (online_users (db st))) <= 1)%nat)
  /\ (forall r, In r (online_users (db st)) ->
        is_Some (connectedUsers st !! ou_socket_id r)).
Proof.
  cbv zeta.
  assert (Hgen : forall st,
    ((forall k, (length (rows_of k (online_users (db st))) <= 1)%nat)
     /\ (forall r, In r (online_users (db st)) ->
           is_Some (connectedUsers st !! ou_socket_id r))) ->
    (forall k, (length (rows_of k (online_users (db (run st tr)))) <= 1)%nat)
    /\ (forall r, In r (online_users (db (run st tr))) ->
          is_Some (connectedUsers (run st tr) !! ou_socket_id r))).
  { induction tr as [|i tr IH]; intros st Hst; simpl; [done|].
    unfold step. destruct i as [rq now e o]. cbn [req now_of io_err_of overtaken_of].
    destruct Hst as [Hone Hlive].
    destruct rq as [s|s u|s d|s d|s|s].
    - now apply IH.
    - apply IH. unfold on_join. cbn [fst db connectedUsers].
      unfold insert_or_replace_online. cbn [online_users]. split.
      + intros k. rewrite rows_of_app, length_app, rows_of_single. cbn [ou_student_id].
        pose proof (rows_of_filter_le k
          (fun r => negb (same_key (studentId u) r)) (online_users (db st))) as Hle.
        specialize (Hone k).
        destruct (studentId u) as [k'|] eqn:Hk; [|lia].
        destruct (String.eqb_spec k k') as [->|Hne]; [|lia].
        unfold rows_of at 1. rewrite filter_filter_none. simpl. lia.
      + intros r [Hr|[<-|[]]]%in_app_or.
        * apply List.filter_In in Hr as [Hr _]. specialize (Hlive r Hr).
          destruct (decide (s = ou_socket_id r)) as [->|Hne].
          -- rewrite lookup_insert_eq. eauto.
          -- now rewrite lookup_insert_ne.
        * cbn [ou_socket_id]. rewrite lookup_insert_eq. eauto.
    - destruct (on_sendMessage st s d now e) as [st' out|] eqn:Hsend; [|done].
      apply IH.
      destruct (sendMessage_keeps_presence _ _ _ _ _ _ _ Hsend) as (_ & -> & ->). done.
    - pose proof (getMessages_keeps_state st s d now e) as Hsame.
      destruct (on_getMessages st s d now e) as [st' out]. cbn [fst] in Hsame. subst st'.
      now apply IH.
    - destruct (on_disconnect st s e o) as [st' out] eqn:Hd. apply IH.
      unfold on_disconnect in Hd. cbn [connectedUsers db] in Hd.
      destruct (connectedUsers st !! s) eqn:Hcu; injection Hd as <- _;
        cbn [connectedUsers db]; [|done].
      unfold delete_online. cbn [online_users]. split.
      + intros k. etransitivity; [apply rows_of_filter_le|apply Hone].
      + intros r [Hr Hne]%List.filter_In.
        apply negb_true_iff, String.eqb_neq in Hne.
        rewrite lookup_delete_ne by congruence. now apply Hlive.
    - done. }
  apply Hgen. split; [intros k; simpl; lia|intros r []].
Qed.

(** ** Days that are not a count *)

Lemma since_selects_nothing n now rows :
  datetime_now now ("-" +:+ n +:+ " days") = None ->
  List.filter (selects (WhereSince ("-" +:+ n +:+ " days")) [] now) rows = [].
Proof.
  intros H. induction rows as [|r rows IH]; simpl; [done|]. now rewrite H.
Qed.

Lemma since_query_empty st v now :
  parse_modifier ("-" +:+ number_to_string v +:+ " days") = NotAModifier ->
  all_messages (db st) (since_text (number_to_string v)) [] now false = Some [].
Proof.
  intros Hm. unfold all_messages. cbv iota. rewrite prepare_number.
  cbn [server_statement where_of descending capped placeholders length Nat.ltb Nat.leb].
  rewrite since_selects_nothing; [done|]. unfold datetime_now. now rewrite Hm.
Qed.

(** X6. A number of days below zero, or over HTTP a [days] text that does
    not start with a number, makes the query return no message at all:
    it is neither refused nor treated as no filter. *)
Theorem senseless_days_return_nothing (st : state) (sock : socket_id)
    (d : date_range) (q : req_query) (n : Z) (text : string) (now : Z) :
  days d = Some (JNumber n) -> n < 0 ->
  q_days q = Some text -> text <> EmptyString -> parseInt text = None ->
  on_getMessages st sock d now false = (st, [socket_emit sock (messageHistory [])])
  /\ api_messages st q now false = json_ok [].
Proof.
  intros Hd Hn Hq Hne Hparse. split.
  - unfold on_getMessages. rewrite getMessages_query_cases, Hd.
    replace (truthy_value (Some (JNumber n))) with true
      by (symmetry; apply negb_true_iff, Z.eqb_neq; lia).
    cbn [template_value]. rewrite since_query_empty; [done|].
    now rewrite number_to_string_negative, parse_modifier_double_minus.
  - unfold api_messages. rewrite api_messages_query_cases, Hq.
    assert (Htruthy : truthy_text (Some text) = true)
      by (apply negb_true_iff, String.eqb_neq, Hne).
    assert (Hnz : not_identical (Some text) "0" = true).
    { apply negb_true_iff, String.eqb_neq. intros ->. discriminate Hparse. }
    rewrite Htruthy, Hnz. cbn [andb to_text]. rewrite Hparse.
    now rewrite since_query_empty.
Qed.

Lemma senseless_days_return_nothing_witness :
  let row := {| id := 1; student_id := "2021001"; user_name := Some "张三";
                content := "hi"; timestamp := "2024-01-01T08:00:00.000Z" |} in
  let st := {| sockets := ∅; connectedUsers := ∅;
               db := {| messages := [row]; online_users := [] |} |} in
  api_messages st {| q_days := Some "soon"; q_startDate := None; q_endDate := None |}
    1704096000000 false = json_ok []
  /\ on_getMessages st "c1"
       {| days := Some (JNumber (-3)); startDate := None; endDate := None |}
       1704096000000 false = (st, [socket_emit "c1" (messageHistory [])]).
Proof.
  intros row st.
  assert (Hne : "soon" <> EmptyString) by discriminate.
  assert (Hneg : -3 < 0) by reflexivity.
  destruct (senseless_days_return_nothing st "c1"
              {| days := Some (JNumber (-3)); startDate := None; endDate := None |}
              {| q_days := Some "soon"; q_startDate := None; q_endDate := None |}
              (-3) "soon" 1704096000000 eq_refl Hneg eq_refl Hne eq_refl) as [Hs Hh].
  split; [exact Hh | exact Hs].
Defined.

(** ** [parseInt] and the printing of numbers *)

Lemma digit_char c :
  is_digit c = true ->
  is_space c = false /\ c <> "-"%char /\ c <> "+"%char /\ c <> "x"%char
  /\ c <> "X"%char /\ exists v, digit_value 10 c = Some v.
Proof.
  destruct c as [[] [] [] [] [] [] [] []]; intros H; try discriminate H;
    (repeat split; [discriminate..|eexists; reflexivity]).
Qed.

(** A text that starts with a character of ASCII that is not white
    space has no white space to skip. *)
Lemma trim_start_ascii a s :
  (N_of_ascii a < 128)%N -> is_space a = false -> trim_start (String a s) = String a s.
Proof.
  intros Ha Hsp.
  assert (H2 : forall b, is_space2 a b = false).
  { intros b. unfold is_space2. replace (N_of_ascii a =? 194)%N with false; [done|].
    symmetry. apply N.eqb_neq. lia. }
  assert (H3 : forall b c, is_space3 a b c = false).
  { intros b c. unfold is_space3. cbv zeta.
    replace (N_of_ascii a =? 225)%N with false by (symmetry; apply N.eqb_neq; lia).
    replace (N_of_ascii a =? 226)%N with false by (symmetry; apply N.eqb_neq; lia).
    replace (N_of_ascii a =? 227)%N with false by (symmetry; apply N.eqb_neq; lia).
    replace (N_of_ascii a =? 239)%N with false by (symmetry; apply N.eqb_neq; lia).
    reflexivity. }
  destruct s as [|b [|c s]]; cbn [trim_start]; rewrite Hsp; [done|..];
    rewrite H2; [done|]. now rewrite H3.
Qed.

Lemma parseInt_unsigned c s :
  is_digit c = true -> all_digits s = true ->
  parseInt (String c s) = leading_digits 10 None (String c s)
  /\ parseInt (String "-" (String c s))
     = option_map Z.opp (leading_digits 10 None (String c s)).
Proof.
  intros Hc Hs. unfold parseInt.
  rewrite (trim_start_ascii c s), (trim_start_ascii "-" (String c s));
    [|reflexivity|reflexivity
     |destruct c as [[] [] [] [] [] [] [] []]; try discriminate Hc; reflexivity
     |apply (digit_char c Hc)].
  assert (Hopt : forall o : option Z,
            match o with Some v => Some (1 * v) | None => None end = o
            /\ match o with Some v => Some (-1 * v) | None => None end
               = option_map Z.opp o).
  { intros [v|]; simpl; split; try done; f_equal; lia. }
  destruct c as [[] [] [] [] [] [] [] []]; try discriminate Hc;
    try (split; [apply (proj1 (Hopt _))|apply (proj2 (Hopt _))]).
  destruct s as [|c2 s]; [split; reflexivity|].
  simpl in Hs. apply andb_prop in Hs as [Hc2 _].
  destruct c2 as [[] [] [] [] [] [] [] []]; try discriminate Hc2;
    (split; [apply (proj1 (Hopt _))|apply (proj2 (Hopt _))]).
Qed.

Lemma number_text_positive p :
  exists c s, NilZero.string_of_uint (Pos.to_uint p) = String c s
    /\ is_digit c = true /\ all_digits s = true
    /\ leading_digits 10 None (String c s) = Some (Z.pos p).
Proof.
  pose proof (decimal_value_number (Z.pos p) ltac:(lia)) as Hv.
  pose proof (number_all_digits (Z.pos p) ltac:(lia)) as Hd.
  change (number_to_string (Some (Z.pos p)))
    with (NilZero.string_of_uint (Pos.to_uint p)) in Hv, Hd.
  destruct (NilZero.string_of_uint (Pos.to_uint p)) as [|c s]; [discriminate Hv|].
  simpl in Hd. apply andb_prop in Hd as [Hc Hs]. now exists c, s.
Qed.

Lemma parseInt_number_to_string (n : Z) :
  parseInt (number_to_string (Some n)) = Some n.
Proof.
  destruct n as [|p|p]; [reflexivity|..];
    destruct (number_text_positive p) as (c & s & Htext & Hc & Hs & Hv).
  - change (number_to_string (Some (Z.pos p)))
      with (NilZero.string_of_uint (Pos.to_uint p)).
    rewrite Htext, (proj1 (parseInt_unsigned c s Hc Hs)). exact Hv.
  - change (number_to_string (Some (Z.neg p)))
      with (String "-" (NilZero.string_of_uint (Pos.to_uint p))).
    rewrite Htext, (proj2 (parseInt_unsigned c s Hc Hs)), Hv. reflexivity.
Qed.

(** X7. A count of days asked over HTTP, written in decimal, builds the
    statement the same count builds over the socket, for every integer
    and whatever the dates: the two entries of the history agree. *)
Theorem http_and_socket_agree (st : state) (sock : socket_id) (n : Z)
    (from to : option string) (now : Z) (io_err : bool) :
  safe_integer (Some n) ->
  let q := {| q_days := Some (number_to_string (Some n));
              q_startDate := from; q_endDate := to |} in
  let d := {| days := Some (JNumber n); startDate := from; endDate := to |} in
  api_messages_query q = getMessages_query d
  /\ forall l,
       api_messages st q now io_err = json_ok l
       <-> on_getMessages st sock d now io_err = (st, [socket_emit sock (messageHistory l)]).
Proof.
  intros _ q d.
  assert (Hq : api_messages_query q = getMessages_query d).
  { subst q d. rewrite api_messages_query_cases, getMessages_query_cases.
    cbn [q_days q_startDate q_endDate days startDate endDate to_text].
    rewrite parseInt_number_to_string.
    destruct (Z.eq_dec n 0) as [->|Hn]; [reflexivity|].
    assert (Hne : number_to_string (Some n) <> EmptyString).
    { intros H. pose proof (parseInt_number_to_string n) as Hp. rewrite H in Hp.
      discriminate Hp. }
    assert (Hnz : number_to_string (Some n) <> "0").
    { intros H. pose proof (parseInt_number_to_string n) as Hp. rewrite H in Hp.
      change (Some 0 = Some n) in Hp. congruence. }
    replace (truthy_text (Some (number_to_string (Some n)))) with true
      by (symmetry; apply negb_true_iff, String.eqb_neq, Hne).
    replace (not_identical (Some (number_to_string (Some n))) "0") with true
      by (symmetry; apply negb_true_iff, String.eqb_neq, Hnz).
    replace (truthy_value (Some (JNumber n))) with true
      by (symmetry; apply negb_true_iff, Z.eqb_neq, Hn).
    reflexivity. }
  split; [exact Hq|]. intros l. unfold api_messages, on_getMessages. rewrite Hq.
  destruct (getMessages_query d) as [sql params].
  destruct (all_messages _ _ _ _ _); split; intros H; try discriminate H;
    injection H as <-; reflexivity.
Qed.



Lemma http_and_socket_agree_witness :
  safe_integer (Some 7)
  /\ api_messages_query {| q_days := Some "7"; q_startDate := None; q_endDate := None |}
     = getMessages_query
         {| days := Some (JNumber 7); startDate := None; endDate := None |}.
Proof.
  assert (H : safe_integer (Some 7)) by (simpl; lia).
  split; [exact H|].
  exact (proj1 (http_and_socket_agree initial "c1" 7 None None 0 false H)).
Defined.


(** ** The address shown at start-up *)

Lemma first_external_find iface :
  first_external iface = option_map address (List.find external_ipv4 iface).
Proof.
  induction iface as [|a iface IH]; simpl; [done|]. now destruct (external_ipv4 a).
Qed.

Lemma find_append {A} (f : A -> bool) (l l' : list A) :
  List.find f (l ++ l')
  = match List.find f l with Some x => Some x | None => List.find f l' end.
Proof. induction l as [|x l IH]; simpl; [done|]. now destruct (f x). Qed.

Lemma external_not_loopback a : external_ipv4 a = true -> address a <> "127.0.0.1".
Proof.
  unfold external_ipv4. intros H. apply andb_prop in H as [H _].
  apply andb_prop in H as [_ H]. now apply negb_true_iff, String.eqb_neq in H.
Qed.

(** X9. [getLocalIP] returns the address of the first alias, in the order
    of the interfaces and of their aliases, that is IPv4, not internal
    and not 127.0.0.1; it falls back on 127.0.0.1 exactly when there is
    no such alias. *)
Theorem getLocalIP_first_external (interfaces : list (string * list net_alias)) :
  let aliases := concat (map snd interfaces) in
  getLocalIP interfaces
  = match List.find external_ipv4 aliases with
    | Some a => address a
    | None => "127.0.0.1"
    end
  /\ (getLocalIP interfaces = "127.0.0.1"
      <-> forall a, In a aliases -> external_ipv4 a = false).
Proof.
  cbv zeta.
  assert (Hfind : getLocalIP interfaces
                  = match List.find external_ipv4 (concat (map snd interfaces)) with
                    | Some a => address a
                    | None => "127.0.0.1"
                    end).
  { induction interfaces as [|[dev iface] rest IH]; simpl; [done|].
    rewrite first_external_find, find_append.
    destruct (List.find external_ipv4 iface); simpl; [done|exact IH]. }
  split; [exact Hfind|]. rewrite Hfind.
  destruct (List.find external_ipv4 (concat (map snd interfaces))) as [a|] eqn:E.
  - apply List.find_some in E as [Hin Ha]. split.
    + intros Haddr. now apply external_not_loopback in Ha.
    + intros Hall. rewrite (Hall a Hin) in Ha. discriminate.
  - split; [|done]. intros _ a Hin. exact (List.find_none _ _ E a Hin).
Qed.

(** ** Accounts *)

Lemma insert_or_ignore_prefix users sid hash nm now rowid :
  users `prefix_of` insert_or_ignore_user users sid hash nm now rowid.
Proof.
  unfold insert_or_ignore_user. destruct (existsb _ _); [done|]. now apply prefix_app_r.
Qed.

Lemma insert_or_ignore_present users sid hash nm now rowid :
  existsb (has_student_id sid) (insert_or_ignore_user users sid hash nm now rowid) = true.
Proof.
  unfold insert_or_ignore_user.
  destruct (existsb (has_student_id sid) users) eqn:E; [done|].
  rewrite existsb_app, E. simpl. unfold has_student_id. simpl.
  now rewrite String.eqb_refl.
Qed.

Lemma existsb_prefix {A} (f : A -> bool) (l l' : list A) :
  l `prefix_of` l' -> existsb f l = true -> existsb f l' = true.
Proof. intros [k ->] H. rewrite existsb_app, H. reflexivity. Qed.

Lemma fold_insert_prefix h salts ids now defaults : forall users : list user_row,
  users `prefix_of`
    fold_left (insert_default h salts ids now) defaults users.
Proof.
  induction defaults as [|[[sid pw] nm] defaults IH]; intros users; simpl; [done|].
  etransitivity; [apply insert_or_ignore_prefix|apply IH].
Qed.

Lemma fold_insert_present h salts ids now defaults : forall users sid,
  (existsb (has_student_id sid) users = true
   \/ In sid (map (fun d => fst (fst d)) defaults)) ->
  existsb (has_student_id sid)
    (fold_left (insert_default h salts ids now) defaults users) = true.
Proof.
  induction defaults as [|[[sid' pw] nm] defaults IH]; intros users sid H; simpl.
  - destruct H as [H|[]]. exact H.
  - apply IH. destruct H as [H|[<-|H]].
    + left. eapply existsb_prefix; [apply insert_or_ignore_prefix|exact H].
    + left. apply insert_or_ignore_present.
    + now right.
Qed.

Lemma fold_insert_fixed h salts ids now defaults : forall users,
  (forall sid, In sid (map (fun d => fst (fst d)) defaults) ->
     existsb (has_student_id sid) users = true) ->
  fold_left (insert_default h salts ids now) defaults users = users.
Proof.
  induction defaults as [|[[sid pw] nm] defaults IH]; intros users H; simpl; [done|].
  unfold insert_or_ignore_user. rewrite (H sid) by now left.
  apply IH. intros sid' Hin. apply H. now right.
Qed.

(** X10. [createDefaultUsers] only adds accounts: those that exist stay as
    they are and where they are, so a default student id that is taken
    keeps its password and name; this whatever the order in which the
    inserts run and the ids the engine gives. *)
Theorem createDefaultUsers_keeps_accounts (hashSync : string -> string -> string)
    (salt_of : string -> string) (rowid_of : string -> Z)
    (order : list (string * string * string)) (users : list user_row) (now : Z) :
  users `prefix_of` createDefaultUsers hashSync salt_of rowid_of order users now.
Proof. apply fold_insert_prefix. Qed.

Lemma order_student_ids order sid :
  order_of_inserts order ->
  In sid (map (fun d : string * string * string => fst (fst d)) order)
  <-> In sid (map (fun d : string * string * string => fst (fst d)) defaultUsers).
Proof.
  intros Hp. pose proof (Permutation_map
    (fun d : string * string * string => fst (fst d)) Hp) as Hm.
  split; intros H; [|symmetry in Hm]; exact (Permutation_in _ Hm H).
Qed.

(** X11. Running [createDefaultUsers] again, as every start of the server
    does, changes nothing, whatever salts bcrypt draws then, whatever
    ids the engine has to give, and in whatever order the inserts run
    either time. *)
Theorem createDefaultUsers_idempotent (hashSync : string -> string -> string)
    (salt1 salt2 : string -> string) (rowid1 rowid2 : string -> Z)
    (order1 order2 : list (string * string * string)) (users : list user_row)
    (t1 t2 : Z) :
  order_of_inserts order1 -> order_of_inserts order2 ->
  createDefaultUsers hashSync salt2 rowid2 order2
    (createDefaultUsers hashSync salt1 rowid1 order1 users t1) t2
  = createDefaultUsers hashSync salt1 rowid1 order1 users t1.
Proof.
  intros H1 H2. unfold createDefaultUsers at 1. apply fold_insert_fixed.
  intros sid Hin. apply fold_insert_present. right.
  now apply (order_student_ids order1 sid H1), (order_student_ids order2 sid H2).
Qed.

Lemma createDefaultUsers_idempotent_witness :
  let first := createDefaultUsers (fun _ p => p) (fun _ => "a") (fun _ => 1)
                 defaultUsers [] 0 in
  order_of_inserts defaultUsers /\ order_of_inserts (rev defaultUsers)
  /\ createDefaultUsers (fun _ p => p) (fun _ => "b") (fun _ => 9)
       (rev defaultUsers) first 1000
     = first.
Proof.
  intros first.
  assert (H1 : order_of_inserts defaultUsers) by apply Permutation_refl.
  assert (H2 : order_of_inserts (rev defaultUsers))
    by (apply Permutation_sym, Permutation_rev).
  split; [exact H1|]. split; [exact H2|].
  exact (createDefaultUsers_idempotent (fun _ p => p) (fun _ => "a") (fun _ => "b")
           (fun _ => 1) (fun _ => 9) defaultUsers (rev defaultUsers) [] 0 1000 H1 H2).
Defined.

Lemma get_user_prefix users users' sid r :
  users `prefix_of` users' -> get_user users sid = Some r -> get_user users' sid = Some r.
Proof. intros [k ->] H. unfold get_user in *. now rewrite find_append, H. Qed.

Lemma get_user_none users sid :
  existsb (has_student_id sid) users = false -> get_user users sid = None.
Proof.
  unfold get_user. induction users as [|u users IH]; simpl; [done|].
  destruct (has_student_id sid u); [discriminate|exact IH].
Qed.

Lemma get_user_inserted users sid hash nm now rowid :
  existsb (has_student_id sid) users = false ->
  exists r, get_user (insert_or_ignore_user users sid hash nm now rowid) sid = Some r
    /\ acct_student_id r = sid /\ acct_password r = hash /\ acct_name r = Some nm.
Proof.
  intros H. unfold insert_or_ignore_user. rewrite H. unfold get_user.
  rewrite find_append. fold (get_user users sid). rewrite (get_user_none _ _ H).
  simpl. unfold has_student_id. simpl. rewrite String.eqb_refl. eauto.
Qed.

Lemma insert_other_absent users sid sid' hash nm now rowid :
  sid <> sid' -> existsb (has_student_id sid) users = false ->
  existsb (has_student_id sid) (insert_or_ignore_user users sid' hash nm now rowid)
  = false.
Proof.
  intros Hne H. unfold insert_or_ignore_user.
  destruct (existsb (has_student_id sid') users); [done|].
  rewrite existsb_app, H. simpl. unfold has_student_id. simpl.
  replace (sid' =? sid)%string with false by (symmetry; apply String.eqb_neq; congruence).
  reflexivity.
Qed.

Lemma fold_insert_get h salts ids now defaults : forall (users : list user_row) sid pw nm,
  NoDup (map (fun d : string * string * string => fst (fst d)) defaults) ->
  In (sid, pw, nm) defaults ->
  existsb (has_student_id sid) users = false ->
  exists r, get_user (fold_left (insert_default h salts ids now) defaults users) sid
            = Some r
    /\ acct_student_id r = sid /\ acct_password r = h (salts sid) pw
    /\ acct_name r = Some nm.
Proof.
  induction defaults as [|[[sid' pw'] nm'] defaults IH]; intros users sid pw nm Hnd Hin Hfresh;
    [destruct Hin|].
  simpl in Hnd. apply NoDup_cons in Hnd as [Hsid' Hnd]. simpl.
  destruct Hin as [[= -> -> ->]|Hin].
  - destruct (get_user_inserted users sid (h (salts sid) pw) nm now (ids sid) Hfresh)
      as (r & Hr & Hfields).
    exists r. split; [|exact Hfields].
    eapply get_user_prefix; [apply fold_insert_prefix|exact Hr].
  - apply IH; [done|done|]. apply insert_other_absent; [|done].
    intros ->. apply Hsid'. apply list_elem_of_In.
    now apply (in_map (fun d : string * string * string => fst (fst d)) _ (sid', pw, nm)).
Qed.

(** X12. When the student id of a default user is free,
    [createDefaultUsers] makes that user able to log in with the default
    password, and the login answers with the default name, provided
    bcrypt accepts a password against its own hash; this in whatever
    order the inserts run. *)
Theorem default_user_can_log_in (hashSync : string -> string -> string)
    (compareSync : string -> string -> bool) (salt_of : string -> string)
    (rowid_of : string -> Z) (order : list (string * string * string))
    (users : list user_row) (sid pw nm : string) (t now : Z) :
  (forall salt password, compareSync password (hashSync salt password) = true) ->
  order_of_inserts order ->
  In (sid, pw, nm) defaultUsers ->
  existsb (has_student_id sid) users = false ->
  fst (api_login compareSync
         (createDefaultUsers hashSync salt_of rowid_of order users t)
         {| login_studentId := Some sid; login_password := Some pw |} now false)
  = login_ok {| studentId := Some sid; name := Some nm |}.
Proof.
  intros Hbcrypt Horder Hin Hfresh.
  assert (Hnd0 : NoDup (map (fun d : string * string * string => fst (fst d))
                          defaultUsers)).
  { simpl. repeat (apply NoDup_cons_2;
      [rewrite list_elem_of_In; simpl; intuition discriminate|]).
    apply NoDup_nil_2. }
  assert (Hnd : NoDup (map (fun d : string * string * string => fst (fst d)) order)).
  { pose proof (Permutation_map
      (fun d : string * string * string => fst (fst d)) Horder) as Hm.
    now rewrite Hm. }
  assert (Hin' : In (sid, pw, nm) order)
    by (eapply Permutation_in; [symmetry; exact Horder|exact Hin]).
  destruct (fold_insert_get hashSync salt_of rowid_of t order users sid pw nm
              Hnd Hin' Hfresh)
    as (r & Hr & Hsid & Hpw & Hnm).
  assert (Htruthy : truthy_text (Some sid) = true /\ truthy_text (Some pw) = true).
  { simpl in Hin. destruct Hin as [[= <- <- <-]|[[= <- <- <-]|[[= <- <- <-]|[[= <- <- <-]|[]]]]];
      split; reflexivity. }
  unfold api_login. cbn [login_studentId login_password to_text].
  rewrite (proj1 Htruthy), (proj2 Htruthy). cbn [negb orb].
  unfold createDefaultUsers. rewrite Hr, Hpw, Hbcrypt. cbn [negb fst].
  now rewrite Hsid, Hnm.
Qed.

Lemma default_user_can_log_in_witness :
  let hashSync := fun salt password : string => password in
  let compareSync := fun password hash : string => (hash =? password)%string in
  (forall salt password, compareSync password (hashSync salt password) = true)
  /\ order_of_inserts (rev defaultUsers)
  /\ fst (api_login compareSync
            (createDefaultUsers hashSync (fun _ => "salt") (fun _ => 1)
               (rev defaultUsers) [] 0)
            {| login_studentId := Some "2021002"; login_password := Some "123456" |}
            1000 false)
     = login_ok {| studentId := Some "2021002"; name := Some "李四" |}.
Proof.
  intros hashSync compareSync.
  assert (H : forall salt password, compareSync password (hashSync salt password) = true)
    by (intros salt password; apply String.eqb_refl).
  assert (Ho : order_of_inserts (rev defaultUsers))
    by (apply Permutation_sym, Permutation_rev).
  split; [exact H|]. split; [exact Ho|].
  apply (default_user_can_log_in hashSync compareSync (fun _ => "salt") (fun _ => 1)
           (rev defaultUsers) [] "2021002" "123456" "李四" 0 1000 H Ho).
  - right. now left.
  - reflexivity.
Defined.

Lemma update_last_login_accounts users sid now :
  map account_of (update_last_login users sid now) = map account_of users.
Proof.
  unfold update_last_login. rewrite List.map_map. apply List.map_ext.
  intros u. now destruct (has_student_id sid u).
Qed.

(** X13. A login is granted only to a request that names an account of the
    table and whose password [compareSync] accepts against the hash of
    that account; the answer carries that account's id and name. When
    it is refused the table is untouched. *)
Theorem login_needs_matching_password (compareSync : string -> string -> bool)
    (users : list user_row) (body : login_body) (now : Z) (io_err : bool) :
  match fst (api_login compareSync users body now io_err) with
  | login_ok user =>
      exists sid pw row,
        login_studentId body = Some sid /\ login_password body = Some pw
        /\ In row users /\ acct_student_id row = sid
        /\ compareSync pw (acct_password row) = true
        /\ user = {| studentId := Some sid; name := acct_name row |}
  | login_refused _ _ => snd (api_login compareSync users body now io_err) = users
  end.
Proof.
  unfold api_login.
  destruct (login_studentId body) as [sid|]; [|reflexivity].
  destruct (login_password body) as [pw|];
    [|cbn [truthy_text]; now rewrite orb_true_r].
  destruct (negb (truthy_text (Some sid)) || negb (truthy_text (Some pw))); [reflexivity|].
  destruct io_err; [reflexivity|]. cbn [to_text].
  destruct (get_user users sid) as [row|] eqn:Hrow; [|reflexivity].
  destruct (compareSync pw (acct_password row)) eqn:Hpw; [|reflexivity].
  cbn [negb fst]. apply List.find_some in Hrow as [Hin Hsid].
  apply String.eqb_eq in Hsid. exists sid, pw, row. rewrite Hsid. auto 10.
Qed.

Lemma api_login_accounts compareSync users body now io_err :
  map account_of (snd (api_login compareSync users body now io_err))
  = map account_of users.
Proof.
  unfold api_login.
  destruct (negb _ || negb _); [reflexivity|]. destruct io_err; [reflexivity|].
  destruct (get_user _ _); [|reflexivity].
  destruct (negb _); [reflexivity|]. apply update_last_login_accounts.
Qed.

(** X14. A login, granted or not, changes no account's id, student id,
    password hash, name or date of creation: at most dates of last
    login. *)
Theorem login_keeps_accounts (compareSync : string -> string -> bool)
    (users : list user_row) (body : login_body) (now : Z) (io_err : bool) :
  map account_of (snd (api_login compareSync users body now io_err))
  = map account_of users.
Proof. apply api_login_accounts. Qed.

Lemma insert_or_ignore_unique users sid hash nm now rowid :
  NoDup (map acct_student_id users) ->
  NoDup (map acct_student_id (insert_or_ignore_user users sid hash nm now rowid)).
Proof.
  intros Hnd. unfold insert_or_ignore_user.
  destruct (existsb (has_student_id sid) users) eqn:E; [done|].
  rewrite map_app. apply NoDup_app. split; [done|]. split; [|apply NoDup_singleton].
  intros x Hx ->%list_elem_of_singleton. simpl in Hx.
  apply list_elem_of_In, in_map_iff in Hx as (u & Hu & Hin).
  assert (existsb (has_student_id sid) users = true); [|congruence].
  apply existsb_exists. exists u. split; [done|]. now apply String.eqb_eq.
Qed.

(** X15. The student ids of the accounts stay pairwise distinct through
    [createDefaultUsers] and through logins. *)
Theorem student_ids_stay_unique (hashSync : string -> string -> string)
    (compareSync : string -> string -> bool) (salt_of : string -> string)
    (rowid_of : string -> Z) (order : list (string * string * string))
    (users : list user_row) (body : login_body) (t now : Z) (io_err : bool) :
  NoDup (map acct_student_id users) ->
  NoDup (map acct_student_id
           (createDefaultUsers hashSync salt_of rowid_of order users t))
  /\ NoDup (map acct_student_id (snd (api_login compareSync users body now io_err))).
Proof.
  intros Hnd. split.
  - unfold createDefaultUsers. revert users Hnd.
    induction order as [|[[sid pw] nm] defaults IH]; intros users Hnd; simpl; [done|].
    apply IH. now apply insert_or_ignore_unique.
  - pose proof (api_login_accounts compareSync users body now io_err) as H.
    apply (f_equal (map (fun a : Z * string * string * option string * string =>
                           snd (fst (fst (fst a)))))) in H.
    rewrite !List.map_map in H. cbn [account_of fst snd] in H.
    unfold acct_student_id in *. now rewrite H.
Qed.

Lemma student_ids_stay_unique_witness :
  NoDup (map acct_student_id [])
  /\ NoDup (map acct_student_id
              (createDefaultUsers (fun _ p => p) (fun _ => "salt") (fun _ => 1)
                 defaultUsers [] 0)).
Proof.
  assert (H : NoDup (map acct_student_id [])) by apply NoDup_nil_2.
  split; [exact H|].
  exact (proj1 (student_ids_stay_unique (fun _ p => p) (fun p h => (h =? p)%string)
                  (fun _ => "salt") (fun _ => 1) defaultUsers []
                  {| login_studentId := None; login_password := None |} 0 0 false H)).
Defined.

(** ** The calendar date of a stored timestamp *)

Lemma civil_ranges z :
  1 <= snd (fst (civil_from_days z)) <= 12 /\ 1 <= snd (civil_from_days z) <= 31.
Proof.
  unfold civil_from_days. cbv zeta. cbn [fst snd].
  set (z' := z + 719468).
  set (era := z' / 146097).
  set (doe := z' - era * 146097).
  assert (Hdoe : 0 <= doe <= 146096) by (subst doe era; Z.div_mod_to_equations; lia).
  clearbody doe. clear z' era.
  set (yoe := (doe - doe / 1460 + doe / 36524 - doe / 146096) / 365).
  set (doy := doe - (365 * yoe + yoe / 4 - yoe / 100)).
  assert (Hyoe : 0 <= yoe <= 399) by (subst yoe; Z.div_mod_to_equations; lia).
  assert (Hdoy : 0 <= doy <= 365) by (subst doy yoe; Z.div_mod_to_equations; lia).
  clearbody doy.
  set (mp := (5 * doy + 2) / 153).
  assert (Hmp : 0 <= mp <= 11) by (subst mp; Z.div_mod_to_equations; lia).
  split.
  - destruct (mp <? 10) eqn:E; lia.
  - subst mp. Z.div_mod_to_equations. lia.
Qed.

Lemma digit_as_char z :
  is_digit (digit z) = true /\ digit_value 10 (digit z) = Some (z mod 10).
Proof.
  unfold digit. pose proof (Z.mod_pos_bound z 10 ltac:(lia)) as Hr.
  set (r := z mod 10) in *.
  assert (Hcases : r = 0 \/ r = 1 \/ r = 2 \/ r = 3 \/ r = 4 \/ r = 5 \/ r = 6
                   \/ r = 7 \/ r = 8 \/ r = 9) by lia.
  clearbody r. repeat (destruct Hcases as [->|Hcases]); subst; split; reflexivity.
Qed.

Lemma two_digits z :
  0 <= z <= 99 -> 10 * (10 * 0 + (z / 10) mod 10) + z mod 10 = z.
Proof. intros H. Z.div_mod_to_equations. lia. Qed.

Lemma three_digits z :
  0 <= z <= 999 ->
  10 * (10 * (10 * 0 + (z / 10 / 10) mod 10) + (z / 10) mod 10) + z mod 10 = z.
Proof. intros H. Z.div_mod_to_equations. lia. Qed.

Lemma four_digits z :
  0 <= z <= 9999 ->
  10 * (10 * (10 * (10 * 0 + (z / 10 / 10 / 10) mod 10) + (z / 10 / 10) mod 10)
        + (z / 10) mod 10) + z mod 10 = z.
Proof. intros H. Z.div_mod_to_equations. lia. Qed.

Lemma toISOString_chars t :
  four_digit_year t ->
  toISOString t
  = String (digit (year_of t / 10 / 10 / 10)) (String (digit (year_of t / 10 / 10))
      (String (digit (year_of t / 10)) (String (digit (year_of t)) (String "-"
      (String (digit (month_of t / 10)) (String (digit (month_of t)) (String "-"
      (String (digit (day_of t / 10)) (String (digit (day_of t)) (String "T"
      (String (digit (hours_of t / 10)) (String (digit (hours_of t)) (String ":"
      (String (digit (minutes_of t / 10)) (String (digit (minutes_of t)) (String ":"
      (String (digit (seconds_of t / 10)) (String (digit (seconds_of t)) (String "."
      (String (digit (millis_of t / 10 / 10)) (String (digit (millis_of t / 10))
      (String (digit (millis_of t)) "Z")))))))))))))))))))))).
Proof.
  intros [Hlo Hhi]. unfold toISOString, iso_year.
  replace ((0 <=? year_of t) && (year_of t <=? 9999)) with true
    by (symmetry; apply andb_true_intro; split; lia).
  reflexivity.
Qed.

Lemma in_range_intro v lo hi : lo <= v <= hi -> in_range (Some v) lo hi = true.
Proof. intros H. unfold in_range. apply andb_true_intro. split; lia. Qed.

Lemma clock_ranges t :
  0 <= hours_of t <= 23 /\ 0 <= minutes_of t <= 59 /\ 0 <= seconds_of t <= 59
  /\ 0 <= millis_of t <= 999.
Proof.
  unfold hours_of, minutes_of, seconds_of, millis_of, ms_per_day.
  repeat split; Z.div_mod_to_equations; lia.
Qed.

(** SQLite's [date] reads the calendar date back from a timestamp
    written by [toISOString]. *)
Lemma date_toISOString t :
  four_digit_year t -> date (toISOString t) = Some (day_text t).
Proof.
  intros Hy. rewrite (toISOString_chars t Hy).
  destruct (civil_ranges (t / ms_per_day)) as [Hm Hd].
  fold (month_of t) in Hm. fold (day_of t) in Hd.
  destruct (clock_ranges t) as (Hh & Hmi & Hs & Hms).
  unfold date, number_at. cbn [String.length Nat.eqb substring span_digits].
  rewrite !(proj1 (digit_as_char _)).
  cbn [span_digits String.length Nat.eqb decimal_value leading_digits].
  rewrite !(proj2 (digit_as_char _)). cbv beta iota delta [from_option Datatypes.id].
  pose proof Hy as [Hy1 Hy2]. rewrite four_digits by lia.
  rewrite !two_digits by lia. rewrite three_digits by lia.
  rewrite !in_range_intro by lia. reflexivity.
Qed.

Lemma date_is_prefix s x : date s = Some x -> x = substring 0 10 s.
Proof. unfold date. destruct (_ && _); [now intros [= <-]|discriminate]. Qed.

Lemma date_written r :
  written_by_sendMessage r -> date (timestamp r) = Some (substring 0 10 (timestamp r)).
Proof.
  intros (t & Hy & Hts). pose proof (date_toISOString t Hy) as Hd.
  rewrite <- Hts in Hd. rewrite Hd. f_equal. now apply date_is_prefix.
Qed.

Lemma run_rows_sent (P : message_row -> Prop) : forall (tr : list input) (st : state),
  (forall i r, In i tr -> sent_by i r -> P r) ->
  List.Forall P (messages (db st)) ->
  List.Forall P (messages (db (run st tr))).
Proof.
  induction tr as [|i tr IH]; intros st Hsent Hst; simpl; [done|].
  destruct (step st i) as [st' out|] eqn:Hstep; [|done].
  apply IH; [intros j r Hj; apply Hsent; now right|].
  destruct (step_stores _ _ _ _ Hstep) as [->|(r & -> & _ & Hr)]; [done|].
  apply List.Forall_app. split; [done|]. constructor; [|constructor].
  apply (Hsent i r); [now left|exact Hr].
Qed.

(** X16. Every row of the log after a run of the server from the empty
    store was stored by a [sendMessage] of that run that carried a user
    and on which the engine did not fail: the row has the student id,
    the name and the content of that payload, and its timestamp is the
    clock of that very event as [toISOString] prints it. *)
Theorem stored_rows_come_from_sendMessage (tr : list input) :
  List.Forall (fun r => exists i, In i tr /\ sent_by i r)
    (messages (db (run initial tr))).
Proof.
  apply run_rows_sent; [|constructor].
  intros i r Hi Hr. now exists i.
Qed.

Lemma date_filters_select from to now r :
  from <> EmptyString -> written_by_sendMessage r ->
  selects (if truthy_text to then WhereBetween else WhereFrom)
    (if truthy_text to then [Some from; to] else [Some from]) now r
  = in_date_range from to r.
Proof.
  intros Hfrom Hr. unfold in_date_range. cbv zeta.
  destruct (truthy_text to) eqn:Hto; unfold selects, param; cbn [lookup list_lookup mjoin];
    rewrite (date_written r Hr); cbn [text_le].
  - destruct to as [e|]; [|discriminate Hto]. reflexivity.
  - now rewrite andb_true_r.
Qed.

(** X17. With a start date and no days, the handlers keep the messages
    whose calendar date (the first ten characters of the timestamp, a
    date in UTC) is not before the start date and, when an end date is
    given, not after it; the comparison is that of texts, bounds
    included, and the answer is ordered and capped as always. *)
Theorem date_range_filter (st : state) (sock : socket_id) (from : string)
    (to : option string) (now : Z) :
  from <> EmptyString ->
  List.Forall written_by_sendMessage (messages (db st)) ->
  let answer :=
    map formatMessage
      (take 1000 (order_by timestamp
                    (List.filter (in_date_range from to) (messages (db st))))) in
  on_getMessages st sock {| days := None; startDate := Some from; endDate := to |}
    now false
  = (st, [socket_emit sock (messageHistory answer)])
  /\ api_messages st {| q_days := None; q_startDate := Some from; q_endDate := to |}
       now false
     = json_ok answer.
Proof.
  intros Hfrom Hrows answer.
  assert (Htruthy : truthy_text (Some from) = true)
    by (apply negb_true_iff, String.eqb_neq, Hfrom).
  assert (Hsel : forall w params,
            (w, params) = (if truthy_text to then (WhereBetween, [Some from; to])
                           else (WhereFrom, [Some from])) ->
            List.filter (selects w params now) (messages (db st))
            = List.filter (in_date_range from to) (messages (db st))).
  { intros w params Hw. apply List.filter_ext_in. intros r Hr.
    rewrite <- (date_filters_select from to now r Hfrom);
      [|exact (proj1 (List.Forall_forall _ _) Hrows r Hr)].
    destruct (truthy_text to); now injection Hw as -> ->. }
  split.
  - unfold on_getMessages. rewrite getMessages_query_cases.
    cbn [days startDate endDate truthy_value differs_from_zero]. rewrite Htruthy.
    cbn [andb].
    destruct (truthy_text to) eqn:Hto; unfold all_messages; cbv iota.
    + change (prepare between_text) with (Some (server_statement WhereBetween)).
      cbn [server_statement where_of descending capped placeholders length
           Nat.ltb Nat.leb].
      now rewrite (Hsel _ _ eq_refl).
    + change (prepare from_text) with (Some (server_statement WhereFrom)).
      cbn [server_statement where_of descending capped placeholders length
           Nat.ltb Nat.leb].
      now rewrite (Hsel _ _ eq_refl).
  - unfold api_messages. rewrite api_messages_query_cases.
    cbn [q_days q_startDate q_endDate]. change (truthy_text None) with false.
    rewrite Htruthy. cbn [andb].
    destruct (truthy_text to) eqn:Hto; unfold all_messages; cbv iota.
    + change (prepare between_text) with (Some (server_statement WhereBetween)).
      cbn [server_statement where_of descending capped placeholders length
           Nat.ltb Nat.leb].
      now rewrite (Hsel _ _ eq_refl).
    + change (prepare from_text) with (Some (server_statement WhereFrom)).
      cbn [server_statement where_of descending capped placeholders length
           Nat.ltb Nat.leb].
      now rewrite (Hsel _ _ eq_refl).
Qed.

Lemma date_range_filter_witness :
  let row n ts := {| id := n; student_id := "2021001"; user_name := Some "张三";
                     content := "hi"; timestamp := ts |} in
  let st := {| sockets := ∅; connectedUsers := ∅;
               db := {| messages := [row 1 (toISOString 1704096000000);
                                     row 2 (toISOString 1706745600000)];
                        online_users := [] |} |} in
  "2024-01-01" <> EmptyString
  /\ List.Forall written_by_sendMessage (messages (db st))
  /\ api_messages st {| q_days := None; q_startDate := Some "2024-01-01";
                        q_endDate := Some "2024-01-31" |} 0 false
     = json_ok [formatMessage (row 1 "2024-01-01T08:00:00.000Z")].
Proof.
  intros row st.
  assert (H1 : "2024-01-01" <> EmptyString) by discriminate.
  assert (H2 : List.Forall written_by_sendMessage (messages (db st))).
  { repeat constructor.
    - exists 1704096000000. split; [vm_compute; split; discriminate|reflexivity].
    - exists 1706745600000. split; [vm_compute; split; discriminate|reflexivity]. }
  split; [exact H1|]. split; [exact H2|].
  rewrite (proj2 (date_range_filter st "c1" "2024-01-01" (Some "2024-01-31") 0 H1 H2)).
  reflexivity.
Defined.

(** ** The order of timestamps *)

Lemma date_number_parts z :
  let era := (z + 719468) / 146097 in
  let doe := (z + 719468) - era * 146097 in
  date_number z
  = (era * 400 + year_of_era doe) * 10000
    + month_day (doe - year_start (year_of_era doe)).
Proof.
  cbv zeta. unfold date_number, civil_from_days, month_day, year_of_era, year_start.
  cbv zeta.
  match goal with |- context [?a <=? 2] => destruct (a <=? 2) end; lia.
Qed.

Lemma year_bracket doe :
  0 <= doe < 146096 ->
  year_start (year_of_era doe) <= doe < year_start (year_of_era doe + 1).
Proof.
  intros H. unfold year_start, year_of_era.
  split; Z.div_mod_to_equations; lia.
Qed.

Lemma year_of_era_range doe :
  0 <= doe <= 146096 ->
  0 <= year_of_era doe <= 399 /\ 0 <= doe - year_start (year_of_era doe) <= 365.
Proof.
  intros H. unfold year_start, year_of_era.
  split; Z.div_mod_to_equations; lia.
Qed.

Lemma year_start_mono y1 y2 : y1 <= y2 -> year_start y1 <= year_start y2.
Proof. intros H. unfold year_start. Z.div_mod_to_equations. lia. Qed.

Lemma year_of_era_mono d1 d2 :
  0 <= d1 -> d1 < d2 -> d2 <= 146096 -> year_of_era d1 <= year_of_era d2.
Proof.
  intros H0 H1 H2.
  destruct (Z.eq_dec d2 146096) as [->|Hne].
  - change (year_of_era 146096) with 399. apply year_of_era_range. lia.
  - destruct (Z_le_gt_dec (year_of_era d1) (year_of_era d2)) as [Hle|Hgt]; [exact Hle|].
    pose proof (year_bracket d1 ltac:(lia)) as [Ha _].
    pose proof (year_bracket d2 ltac:(lia)) as [_ Hb].
    pose proof (year_start_mono (year_of_era d2 + 1) (year_of_era d1) ltac:(lia)).
    lia.
Qed.

Lemma month_day_step doy :
  0 <= doy < 365 -> month_day doy < month_day (doy + 1).
Proof.
  intros H. unfold month_day. cbv zeta.
  assert (Hmono : (5 * doy + 2) / 153 <= (5 * (doy + 1) + 2) / 153)
    by (apply Z.div_le_mono; lia).
  assert (Hmp : 0 <= (5 * doy + 2) / 153 <= 11) by (Z.div_mod_to_equations; lia).
  assert (Hmp' : 0 <= (5 * (doy + 1) + 2) / 153 <= 11) by (Z.div_mod_to_equations; lia).
  assert (Hnext : (5 * (doy + 1) + 2) / 153 <= (5 * doy + 2) / 153 + 1)
    by (Z.div_mod_to_equations; lia).
  set (mp := (5 * doy + 2) / 153) in *. set (mp' := (5 * (doy + 1) + 2) / 153) in *.
  assert (Hd : 153 * mp <= 5 * doy + 2 < 153 * mp + 153)
    by (subst mp; Z.div_mod_to_equations; lia).
  assert (Hd' : 153 * mp' <= 5 * (doy + 1) + 2 < 153 * mp' + 153)
    by (subst mp'; Z.div_mod_to_equations; lia).
  clearbody mp mp'.
  destruct (mp <? 10) eqn:E1; destruct (mp' <? 10) eqn:E2;
    repeat match goal with
           | |- context [?a <=? 2] => destruct (a <=? 2) eqn:?
           end; Z.div_mod_to_equations; lia.
Qed.

Lemma step_increasing (f : Z -> Z) (lo hi : Z) :
  (forall x, lo <= x < hi -> f x < f (x + 1)) ->
  forall x y, lo <= x -> x < y -> y <= hi -> f x < f y.
Proof.
  intros Hstep x y Hlo Hxy Hhi.
  replace y with (x + 1 + Z.of_nat (Z.to_nat (y - x - 1))) in * by lia.
  induction (Z.to_nat (y - x - 1)) as [|n IH].
  - rewrite Z.add_0_r. apply Hstep. lia.
  - rewrite Nat2Z.inj_succ.
    replace (x + 1 + Z.succ (Z.of_nat n)) with (x + 1 + Z.of_nat n + 1) in * by lia.
    etransitivity; [apply IH; lia|]. apply Hstep. lia.
Qed.

Lemma month_day_range doy :
  0 <= doy <= 365 -> 301 <= month_day doy <= 10229.
Proof.
  intros H.
  assert (H0 : month_day 0 = 301) by reflexivity.
  assert (H1 : month_day 365 = 10229) by reflexivity.
  destruct (Z.eq_dec doy 0) as [->|]; [lia|].
  destruct (Z.eq_dec doy 365) as [->|]; [lia|].
  pose proof (step_increasing month_day 0 365 month_day_step 0 doy).
  pose proof (step_increasing month_day 0 365 month_day_step doy 365).
  lia.
Qed.

(** A later day has a later calendar date. *)
Lemma date_number_increasing z1 z2 : z1 < z2 -> date_number z1 < date_number z2.
Proof.
  intros Hlt. rewrite !date_number_parts. cbv zeta.
  set (era1 := (z1 + 719468) / 146097). set (era2 := (z2 + 719468) / 146097).
  set (doe1 := z1 + 719468 - era1 * 146097). set (doe2 := z2 + 719468 - era2 * 146097).
  assert (Hd1 : 0 <= doe1 <= 146096) by (subst doe1 era1; Z.div_mod_to_equations; lia).
  assert (Hd2 : 0 <= doe2 <= 146096) by (subst doe2 era2; Z.div_mod_to_equations; lia).
  assert (Hera : era1 < era2 \/ (era1 = era2 /\ doe1 < doe2))
    by (subst doe1 doe2 era1 era2; Z.div_mod_to_equations; lia).
  clearbody doe1 doe2 era1 era2.
  destruct (year_of_era_range doe1 Hd1) as [Hy1 Hr1].
  destruct (year_of_era_range doe2 Hd2) as [Hy2 Hr2].
  pose proof (month_day_range _ Hr1) as Hm1.
  pose proof (month_day_range _ Hr2) as Hm2.
  destruct Hera as [Hera|[-> Hdoe]]; [nia|].
  pose proof (year_of_era_mono doe1 doe2 ltac:(lia) Hdoe ltac:(lia)) as Hy.
  destruct (Z.eq_dec (year_of_era doe1) (year_of_era doe2)) as [Heq|Hne]; [|lia].
  rewrite Heq in *.
  pose proof (step_increasing month_day 0 365 month_day_step
                (doe1 - year_start (year_of_era doe2))
                (doe2 - year_start (year_of_era doe2))).
  lia.
Qed.

Lemma date_number_fields t :
  date_number (t / ms_per_day) = year_of t * 10000 + month_of t * 100 + day_of t.
Proof.
  unfold date_number, year_of, month_of, day_of.
  now destruct (civil_from_days (t / ms_per_day)) as [[y m] d].
Qed.

Lemma clock_parts t :
  t = (t / ms_per_day) * 86400000 + hours_of t * 3600000 + minutes_of t * 60000
      + seconds_of t * 1000 + millis_of t.
Proof.
  unfold hours_of, minutes_of, seconds_of, millis_of, ms_per_day.
  Z.div_mod_to_equations. lia.
Qed.

Lemma compare_then_lt c rest :
  c = Lt \/ (c = Eq /\ rest = Lt) -> compare_then c rest = Lt.
Proof. now intros [->|[-> ->]]. Qed.

(** The fields of an earlier instant compare as less. *)
Lemma compare_fields_lt t1 t2 : t1 < t2 -> compare_fields t1 t2 = Lt.
Proof.
  intros Hlt. unfold compare_fields.
  destruct (civil_ranges (t1 / ms_per_day)) as [Hm1 Hd1].
  destruct (civil_ranges (t2 / ms_per_day)) as [Hm2 Hd2].
  fold (month_of t1) in Hm1. fold (day_of t1) in Hd1.
  fold (month_of t2) in Hm2. fold (day_of t2) in Hd2.
  destruct (clock_ranges t1) as (Hh1 & Hmi1 & Hs1 & Hms1).
  destruct (clock_ranges t2) as (Hh2 & Hmi2 & Hs2 & Hms2).
  pose proof (clock_parts t1) as Hp1. pose proof (clock_parts t2) as Hp2.
  pose proof (date_number_fields t1) as Hn1. pose proof (date_number_fields t2) as Hn2.
  assert (Hday : t1 / ms_per_day < t2 / ms_per_day \/ t1 / ms_per_day = t2 / ms_per_day).
  { assert (t1 / ms_per_day <= t2 / ms_per_day); [|lia].
    apply Z.div_le_mono; [reflexivity|lia]. }
  destruct Hday as [Hday|Hday].
  - pose proof (date_number_increasing _ _ Hday) as Hdate.
    rewrite Hn1, Hn2 in Hdate. clear Hp1 Hp2 Hn1 Hn2.
    repeat (apply compare_then_lt; rewrite ?Z.compare_lt_iff, ?Z.compare_eq_iff;
            match goal with
            | |- ?a < ?b \/ _ =>
                destruct (Z.lt_trichotomy a b) as [?|[?|?]];
                [now left | right; split; [assumption|] | exfalso; lia]
            end).
    exfalso. lia.
  - assert (Hy : year_of t1 = year_of t2) by (unfold year_of; now rewrite Hday).
    assert (Hm : month_of t1 = month_of t2) by (unfold month_of; now rewrite Hday).
    assert (Hd : day_of t1 = day_of t2) by (unfold day_of; now rewrite Hday).
    rewrite Hy, Hm, Hd, !Z.compare_refl. cbn [compare_then].
    rewrite Hday in Hp1. clear Hn1 Hn2.
    repeat (apply compare_then_lt; rewrite ?Z.compare_lt_iff, ?Z.compare_eq_iff;
            match goal with
            | |- ?a < ?b \/ _ =>
                destruct (Z.lt_trichotomy a b) as [?|[?|?]];
                [now left | right; split; [assumption|] | exfalso; lia]
            end).
    lia.
Qed.

Lemma compare_fields_refl t : compare_fields t t = Eq.
Proof. unfold compare_fields. now rewrite !Z.compare_refl. Qed.

Lemma compare_then_opp c rest :
  CompOpp (compare_then c rest) = compare_then (CompOpp c) (CompOpp rest).
Proof. now destruct c. Qed.

Lemma compare_fields_antisym t1 t2 : compare_fields t2 t1 = CompOpp (compare_fields t1 t2).
Proof.
  unfold compare_fields. rewrite !compare_then_opp, <- !Z.compare_antisym. reflexivity.
Qed.

Lemma compare_fields_time t1 t2 : compare_fields t1 t2 = (t1 ?= t2).
Proof.
  destruct (Z.compare_spec t1 t2) as [->|Hlt|Hgt].
  - apply compare_fields_refl.
  - now apply compare_fields_lt.
  - rewrite compare_fields_antisym, (compare_fields_lt _ _ Hgt). reflexivity.
Qed.

Lemma compare_digit a b : Ascii.compare (digit a) (digit b) = (a mod 10 ?= b mod 10).
Proof.
  unfold digit, Ascii.compare.
  pose proof (Z.mod_pos_bound a 10 ltac:(lia)) as Ha.
  pose proof (Z.mod_pos_bound b 10 ltac:(lia)) as Hb.
  rewrite !N_ascii_embedding by lia.
  rewrite <- N2Z.inj_compare, !N2Z.inj_add, !Z2N.id by lia.
  apply Z.add_compare_mono_l.
Qed.

Lemma compare_cons_same c x y :
  String.compare (String c x) (String c y) = String.compare x y.
Proof. simpl. now rewrite (proj2 (ascii_compare_eq c c) eq_refl). Qed.

Lemma compare_pad n : forall a b x y,
  0 <= a < 10 ^ Z.of_nat n -> 0 <= b < 10 ^ Z.of_nat n ->
  String.compare (pad n a +:+ x) (pad n b +:+ y)
  = compare_then (a ?= b) (String.compare x y).
Proof.
  induction n as [|n IH]; intros a b x y Ha Hb.
  - change (10 ^ Z.of_nat 0) with 1 in *.
    replace a with 0 by lia. replace b with 0 by lia. reflexivity.
  - rewrite Nat2Z.inj_succ, Z.pow_succ_r in Ha, Hb by lia.
    cbn [pad]. rewrite !append_assoc.
    change (String (digit a) EmptyString +:+ x) with (String (digit a) x).
    change (String (digit b) EmptyString +:+ y) with (String (digit b) y).
    rewrite IH by (Z.div_mod_to_equations; lia).
    cbn [String.compare]. rewrite compare_digit.
    destruct (Z.compare_spec (a / 10) (b / 10));
      destruct (Z.compare_spec (a mod 10) (b mod 10));
      destruct (Z.compare_spec a b); try reflexivity; exfalso;
      Z.div_mod_to_equations; lia.
Qed.

Lemma compare_pad2 a b x y :
  0 <= a <= 99 -> 0 <= b <= 99 ->
  String.compare (pad 2 a +:+ x) (pad 2 b +:+ y)
  = compare_then (a ?= b) (String.compare x y).
Proof. intros Ha Hb. apply compare_pad; change (10 ^ Z.of_nat 2) with 100; lia. Qed.

Lemma compare_pad3 a b x y :
  0 <= a <= 999 -> 0 <= b <= 999 ->
  String.compare (pad 3 a +:+ x) (pad 3 b +:+ y)
  = compare_then (a ?= b) (String.compare x y).
Proof. intros Ha Hb. apply compare_pad; change (10 ^ Z.of_nat 3) with 1000; lia. Qed.

Lemma compare_pad4 a b x y :
  0 <= a <= 9999 -> 0 <= b <= 9999 ->
  String.compare (pad 4 a +:+ x) (pad 4 b +:+ y)
  = compare_then (a ?= b) (String.compare x y).
Proof. intros Ha Hb. apply compare_pad; change (10 ^ Z.of_nat 4) with 10000; lia. Qed.

Lemma toISOString_fields t :
  four_digit_year t ->
  toISOString t
  = pad 4 (year_of t) +:+ String "-" (pad 2 (month_of t) +:+ String "-"
      (pad 2 (day_of t) +:+ String "T" (pad 2 (hours_of t) +:+ String ":"
         (pad 2 (minutes_of t) +:+ String ":" (pad 2 (seconds_of t) +:+ String "."
            (pad 3 (millis_of t) +:+ "Z")))))).
Proof.
  intros [Hlo Hhi]. unfold toISOString, iso_year.
  replace ((0 <=? year_of t) && (year_of t <=? 9999)) with true
    by (symmetry; apply andb_true_intro; split; lia).
  reflexivity.
Qed.

(** The text order of two ISO timestamps is the order of their
    instants. *)
Lemma toISOString_compare t1 t2 :
  four_digit_year t1 -> four_digit_year t2 ->
  String.compare (toISOString t1) (toISOString t2) = (t1 ?= t2).
Proof.
  intros Hy1 Hy2. rewrite <- compare_fields_time.
  rewrite (toISOString_fields t1 Hy1), (toISOString_fields t2 Hy2).
  destruct (civil_ranges (t1 / ms_per_day)) as [Hm1 Hd1].
  destruct (civil_ranges (t2 / ms_per_day)) as [Hm2 Hd2].
  fold (month_of t1) in Hm1. fold (day_of t1) in Hd1.
  fold (month_of t2) in Hm2. fold (day_of t2) in Hd2.
  destruct (clock_ranges t1) as (Hh1 & Hmi1 & Hs1 & Hms1).
  destruct (clock_ranges t2) as (Hh2 & Hmi2 & Hs2 & Hms2).
  destruct Hy1 as [? ?]. destruct Hy2 as [? ?].
  unfold compare_fields.
  rewrite compare_pad4 by lia. rewrite compare_cons_same.
  repeat (rewrite compare_pad2 by lia; rewrite compare_cons_same).
  rewrite compare_pad3 by lia.
  change (String.compare "Z" "Z") with Eq.
  now destruct (millis_of t1 ?= millis_of t2).
Qed.

Lemma toISOString_ltb t1 t2 :
  four_digit_year t1 -> four_digit_year t2 -> t1 <= t2 ->
  String.ltb (toISOString t2) (toISOString t1) = false.
Proof.
  intros Hy1 Hy2 Hle. unfold String.ltb. rewrite toISOString_compare by assumption.
  destruct (Z.compare_spec t2 t1); try reflexivity. lia.
Qed.

(** ** The history in the order of arrival *)

Lemma sorter_insert_last {A} (key : A -> string) (x : A) (l : list A) :
  List.Forall (fun y => String.ltb (key x) (key y) = false) l ->
  sorter_insert key x l = (l ++ [x])%list.
Proof.
  induction 1 as [|y l Hy _ IH]; simpl; [reflexivity|]. now rewrite Hy, IH.
Qed.

Lemma order_by_snoc {A} (key : A -> string) (l : list A) (x : A) :
  order_by key (l ++ [x]) = sorter_insert key x (order_by key l).
Proof. unfold order_by. now rewrite fold_left_app. Qed.

Lemma stamped_until_later lo hi r : lo <= hi -> stamped_until lo r -> stamped_until hi r.
Proof.
  intros Hle (t & Hy & Ht & Hts). exists t. split; [exact Hy|]. split; [lia|exact Hts].
Qed.

Lemma step_arrival_order st i st' out lo :
  step st i = Returned st' out ->
  lo <= now_of i -> four_digit_year (now_of i) ->
  List.Forall (stamped_until lo) (messages (db st)) ->
  order_by timestamp (messages (db st)) = messages (db st) ->
  List.Forall (stamped_until (now_of i)) (messages (db st'))
  /\ order_by timestamp (messages (db st')) = messages (db st').
Proof.
  intros Hstep Hlo Hy Hst Hord.
  assert (Hst' : List.Forall (stamped_until (now_of i)) (messages (db st))).
  { eapply List.Forall_impl; [|exact Hst]. intros r. now apply stamped_until_later. }
  destruct (step_messages _ _ _ _ Hstep) as [->|(r & -> & _ & Hr)]; [done|].
  split.
  - apply List.Forall_app. split; [exact Hst'|]. constructor; [|constructor].
    exists (now_of i). split; [exact Hy|]. split; [lia|exact Hr].
  - rewrite order_by_snoc, Hord. apply sorter_insert_last.
    eapply List.Forall_impl; [|exact Hst']. intros y (t & Hty & Ht & Hts).
    rewrite Hr, Hts. now apply toISOString_ltb.
Qed.

Lemma run_arrival_order tr : forall st lo,
  steady_clock lo tr = true ->
  List.Forall (stamped_until lo) (messages (db st)) ->
  order_by timestamp (messages (db st)) = messages (db st) ->
  order_by timestamp (messages (db (run st tr))) = messages (db (run st tr)).
Proof.
  induction tr as [|i tr IH]; intros st lo Hclock Hst Hord; [exact Hord|].
  cbn [steady_clock] in Hclock.
  apply andb_prop in Hclock as [Hclock Hrest].
  apply andb_prop in Hclock as [Hclock Hhi].
  apply andb_prop in Hclock as [Hlo Hge].
  cbn [run]. destruct (step st i) as [st' out|] eqn:Hstep; [|exact Hord].
  destruct (step_arrival_order st i st' out lo Hstep) as [Hst' Hord'];
    [lia | split; lia | assumption | assumption |].
  now apply (IH st' (now_of i)).
Qed.

Lemma steady_clock_app tr tr' : forall lo,
  steady_clock lo (tr ++ tr') = true -> steady_clock lo tr = true.
Proof.
  induction tr as [|i tr IH]; intros lo H; [reflexivity|].
  cbn [app steady_clock] in *.
  apply andb_prop in H as [H Hrest]. rewrite H. now apply IH.
Qed.

Lemma run_app_prefix tr tr' : forall st,
  messages (db (run st tr)) `prefix_of` messages (db (run st (tr ++ tr'))).
Proof.
  induction tr as [|i tr IH]; intros st.
  - apply run_log_prefix.
  - cbn [app run]. destruct (step st i) as [st' out|]; [apply IH|done].
Qed.

Lemma getMessages_whole_history st sock now :
  on_getMessages st sock whole_history now false
  = (st, [socket_emit sock (messageHistory (unfiltered st))]).
Proof.
  unfold on_getMessages. rewrite getMessages_query_cases.
  cbn [whole_history days startDate endDate truthy_value differs_from_zero
       truthy_text andb].
  unfold all_messages. cbv iota.
  change (prepare all_text) with (Some (server_statement WhereNone)).
  cbn [server_statement where_of descending capped placeholders length
       Nat.ltb Nat.leb].
  unfold unfiltered. repeat f_equal.
  induction (messages (db st)) as [|r l IH]; simpl; [done|]. now rewrite IH.
Qed.

(** X18. While the clock is steady, a request for the whole history is
    answered with the first thousand messages of the log, in the order
    in which they were stored. *)
Theorem history_in_arrival_order (tr : list input) (lo : Z) (sock : socket_id)
    (now : Z) :
  steady_clock lo tr = true ->
  let st := run initial tr in
  on_getMessages st sock whole_history now false
  = (st, [socket_emit sock
            (messageHistory (map formatMessage (take 1000 (messages (db st)))))]).
Proof.
  intros Hclock st. rewrite getMessages_whole_history. unfold unfiltered.
  subst st. rewrite (run_arrival_order tr initial lo Hclock); [reflexivity|constructor|reflexivity].
Qed.

Lemma history_in_arrival_order_witness :
  let send t text :=
    {| req := SendMessage "c1"
                {| content_of := Some text;
                   user_of := Some {| studentId := Some "2021001";
                                      name := Some "张三" |} |};
       now_of := t; io_err_of := false; overtaken_of := false |} in
  let tr := [send 1704096000000 "one"; send 1704096000000 "two";
             send 1704182400000 "three"] in
  steady_clock 0 tr = true
  /\ snd (on_getMessages (run initial tr) "c2" whole_history 1704182400001 false)
     = [socket_emit "c2"
          (messageHistory
             (map formatMessage (take 1000 (messages (db (run initial tr))))))].
Proof.
  intros send tr.
  assert (H : steady_clock 0 tr = true) by (vm_compute; reflexivity).
  split; [exact H|].
  now rewrite (history_in_arrival_order tr 0 "c2" 1704182400001 H).
Defined.

(** X19. Once a thousand messages are stored, the whole history no longer
    changes: whatever is sent afterwards is stored but never shown,
    because the query keeps the thousand oldest rows. *)
Theorem full_history_is_frozen (tr tr' : list input) (lo : Z) (sock : socket_id)
    (now now' : Z) :
  steady_clock lo (tr ++ tr') = true ->
  (1000 <= length (messages (db (run initial tr))))%nat ->
  snd (on_getMessages (run initial (tr ++ tr')) sock whole_history now' false)
  = snd (on_getMessages (run initial tr) sock whole_history now false).
Proof.
  intros Hclock Hfull. rewrite !getMessages_whole_history. cbn [snd].
  unfold unfiltered.
  rewrite (run_arrival_order (tr ++ tr') initial lo Hclock); [|constructor|reflexivity].
  rewrite (run_arrival_order tr initial lo (steady_clock_app tr tr' lo Hclock));
    [|constructor|reflexivity].
  destruct (run_app_prefix tr tr' initial) as [k ->].
  now rewrite take_app_le.
Qed.

Lemma full_history_is_frozen_witness :
  let send t text :=
    {| req := SendMessage "c1"
                {| content_of := Some text;
                   user_of := Some {| studentId := Some "2021001";
                                      name := Some "张三" |} |};
       now_of := t; io_err_of := false; overtaken_of := false |} in
  let tr := repeat (send 1704096000000 "old") 1000 in
  let tr' := [send 1704182400000 "new"] in
  steady_clock 0 (tr ++ tr') = true
  /\ (1000 <= length (messages (db (run initial tr))))%nat
  /\ snd (on_getMessages (run initial (tr ++ tr')) "c2" whole_history 1704182400001 false)
     = snd (on_getMessages (run initial tr) "c2" whole_history 1704096000001 false).
Proof.
  intros send tr tr'.
  assert (H1 : steady_clock 0 (tr ++ tr') = true) by (vm_compute; reflexivity).
  assert (H2 : (1000 <= length (messages (db (run initial tr))))%nat)
    by (apply Nat.leb_le; vm_compute; reflexivity).
  split; [exact H1|]. split; [exact H2|].
  exact (full_history_is_frozen tr tr' 0 "c2" 1704096000001 1704182400001 H1 H2).
Defined.
